(** * THRED: the training and test control loop of the hierarchical
    encoder-decoder (thred/models/hierarchical_base.py)

    A shallow embedding of [BaseHierarchicalEncoderDecoder.train],
    [_sample_decode] and [test].  Python integers are [Z], Python floats are
    the kernel's binary64 [float], the mutable config object is a record
    threaded through the loop, and every call into a collaborator (sessions,
    savers, iterators, the base class helpers) is recorded as an event of a
    trace, in program order.  What a collaborator returns to the loop is read
    from an explicit per-iteration input.  In [train] the collaborators are
    taken to return; [train] has no handler but the one for the end of the
    data, so any other exception of a collaborator leaves it at once, and
    [train_interrupted] is the run in which the training step raises one. *)

From Stdlib Require Import ZArith List Bool Lia Floats.
From Stdlib Require Ascii String.
Import ListNotations.
Import Ascii.AsciiSyntax String.StringSyntax.
Delimit Scope char_scope with char.
Delimit Scope string_scope with string.

Local Open Scope Z_scope.

(** ** The run configuration *)

(** [self.config]: the fields that [train] and [test] read or assign.  Paths,
    [dev_size] and the learning-rate knobs are written or forwarded only, and
    are left out. *)
Module Config.

Record t : Type := mk {
  num_turns : Z;
  pretrain_enabled : bool;          (* self.config.is_pretrain_enabled() *)
  num_pretrain_turns : Z;
  batch_size : Z;
  steps_per_stats : Z;
  steps_per_eval : Z;
  num_train_epochs : Z;
  num_train_steps : Z;
  epoch : Z;
  epoch_step : Z;
  patience : Z;
  best_dev_ppl : float;
  degrade_threshold : float;
  eval_best_model : bool;
  n_responses : Z;
  beam_width : Z
}.

Definition set_epoch (v : Z) (c : t) : t :=
  mk (num_turns c) (pretrain_enabled c) (num_pretrain_turns c) (batch_size c)
     (steps_per_stats c) (steps_per_eval c) (num_train_epochs c)
     (num_train_steps c) v (epoch_step c) (patience c) (best_dev_ppl c)
     (degrade_threshold c) (eval_best_model c) (n_responses c) (beam_width c).

Definition set_epoch_step (v : Z) (c : t) : t :=
  mk (num_turns c) (pretrain_enabled c) (num_pretrain_turns c) (batch_size c)
     (steps_per_stats c) (steps_per_eval c) (num_train_epochs c)
     (num_train_steps c) (epoch c) v (patience c) (best_dev_ppl c)
     (degrade_threshold c) (eval_best_model c) (n_responses c) (beam_width c).

Definition set_best_dev_ppl (v : float) (c : t) : t :=
  mk (num_turns c) (pretrain_enabled c) (num_pretrain_turns c) (batch_size c)
     (steps_per_stats c) (steps_per_eval c) (num_train_epochs c)
     (num_train_steps c) (epoch c) (epoch_step c) (patience c) v
     (degrade_threshold c) (eval_best_model c) (n_responses c) (beam_width c).

End Config.

(** ** Collaborators, events and outcomes *)

(** The three model bundles and their sessions. *)
Inductive mode : Type := TrainMode | EvalMode | InferMode.

Definition mode_eqb (a b : mode) : bool :=
  match a, b with
  | TrainMode, TrainMode | EvalMode, EvalMode | InferMode, InferMode => true
  | _, _ => false
  end.

(** One entry per call that leaves [train] or [test]. *)
Inductive event : Type :=
| PreModelCreation                       (* self._pre_model_creation() *)
| ModelCreate (m : mode)                 (* _helper.create_*_model *)
| PostModelCreation                      (* self._post_model_creation(...) *)
| ConfigSave (c : Config.t)              (* self.config.save() *)
| SessionOpen (m : mode)                 (* tf.Session(...) *)
| ModelLoad (m : mode)                   (* create_or_load_model / load_model *)
| SummaryWriterOpen                      (* tf.summary.FileWriter(...) *)
| IteratorInit (skip_count : Z)          (* train iterator initializer *)
| ModelTrain (ok : bool)                 (* loaded_train_model.train(train_sess) *)
| ModelTrainRaise                        (* the same call, raising another exception *)
| SampleDecode                           (* self.run_sample_decode(...) *)
| StatsReport (global_step : Z)          (* self.check_stats(...) *)
| AddSummary (global_step : Z) (train_ppl : float)
| CheckpointSave (global_step : Z)       (* loaded_train_model.saver.save *)
| InternalEval                           (* self.run_internal_eval(...) *)
| InferBestModel                         (* self.run_infer_best_model(...) *)
| SummaryWriterClose                     (* summary_writer.close() *)
| DecodeAndEvaluate (num_responses_per_input : Z)
| ComputePerplexity                      (* model_helper.compute_perplexity *)
| ModelDecode (decode_id : Z)            (* model.decode(sess) on one example *)
| SessionClose (m : mode).               (* sess.close() / end of with block *)

Definition trace : Type := list event.

Inductive exn : Type :=
  AssertionError | ZeroDivisionError | ValueError | IndexError
| OpError            (* a tf.errors.OpError other than OutOfRangeError *)
| KeyboardInterrupt.

(** How a call ends: it returns, it raises, or (for [train], whose loop is
    driven by a finite list of inputs) the inputs ran out with the loop still
    running. *)
Inductive outcome (A : Type) : Type :=
| Returned (a : A) (tr : trace)
| Raised (e : exn) (tr : trace)
| Pending (tr : trace).

Arguments Returned {A} a tr.
Arguments Raised {A} e tr.
Arguments Pending {A} tr.

(** ** The state of the training loop *)

(** The config object and the locals of [train] that live across iterations.
    The statistics accumulator [stats] is only handed back to the base class
    and is not modelled. *)
Record loop_state : Type := mk_state {
  config : Config.t;
  global_step : Z;
  last_stats_step : Z;
  last_eval_step : Z;
  patience : Z;
  train_ppl : float;
  speed : float
}.

Definition with_config (c : Config.t) (st : loop_state) : loop_state :=
  mk_state c (global_step st) (last_stats_step st) (last_eval_step st)
           (patience st) (train_ppl st) (speed st).

Definition with_patience (p : Z) (st : loop_state) : loop_state :=
  mk_state (config st) (global_step st) (last_stats_step st) (last_eval_step st)
           p (train_ppl st) (speed st).

(** What the collaborators hand back during one pass through the loop body.
    A field is read only if the pass reaches the call it stands for. *)
Record iter_in : Type := mk_in {
  step_ok : bool;                  (* false: train raised tf.errors.OutOfRangeError *)
  stats_out : float * float * bool; (* check_stats: train_ppl, speed, is_overflow *)
  dev_ppl_out : float              (* run_internal_eval *)
}.

(** Modelled from the spec: [update_stats] of the base class
    [NMTEncoderDecoderWrapper] is not part of the sources.  The spec has a
    successful optimization step "advance global_step", a "cumulative count of
    optimization updates", so the value it returns is the successor of the
    current one. *)
Definition update_stats (global_step : Z) : Z := global_step + 1.

(** ** The loop body *)

(** Lines 155-173: the comparison of the fresh dev perplexity with the stored
    best one.  [a > b] on Python floats is [b <? a]. *)
Definition compare_dev_ppl (dev_ppl : float) (st : loop_state) : loop_state :=
  let c := config st in
  if (dev_ppl <? Config.best_dev_ppl c)%float then
    with_patience (Config.patience c)
      (with_config (Config.set_best_dev_ppl dev_ppl c) st)
  else if (Config.degrade_threshold c * Config.best_dev_ppl c <? dev_ppl)%float then
    with_patience (patience st - 1) st
  else st.

(** Lines 141-176: the evaluation cycle, entered when
    [global_step - last_eval_step >= steps_per_eval]. *)
Definition eval_cycle (dev_ppl : float) (st : loop_state) : trace * loop_state :=
  let gs := global_step st in
  let st1 := mk_state (config st) gs (last_stats_step st) gs
                      (patience st) (train_ppl st) (speed st) in
  let st2 := compare_dev_ppl dev_ppl st1 in
  ([AddSummary gs (train_ppl st); CheckpointSave gs; SampleDecode; InternalEval;
    ConfigSave (config st2)], st2).

Definition eval_due (st : loop_state) : bool :=
  Config.steps_per_eval (config st) <=? global_step st - last_eval_step st.

Definition maybe_eval (i : iter_in) (st : loop_state) : trace * loop_state :=
  if eval_due st then eval_cycle (dev_ppl_out i) st else ([], st).

(** Lines 106-124: the handler of [tf.errors.OutOfRangeError]. *)
Definition epoch_rollover (st : loop_state) : trace * loop_state :=
  let c := Config.set_epoch_step 0
             (Config.set_epoch (Config.epoch (config st) + 1) (config st)) in
  ([SampleDecode; ConfigSave c; IteratorInit 0], with_config c st).

Inductive flow : Type := Next | Break.

Definition stats_due (st : loop_state) : bool :=
  Config.steps_per_stats (config st) <=? global_step st - last_stats_step st.

(** Lines 130-139: the statistics report; [Break] on overflow. *)
Definition stats_report (i : iter_in) (st : loop_state) : trace * flow * loop_state :=
  let '(ppl, spd, is_overflow) := stats_out i in
  let gs := global_step st in
  let st1 := mk_state (config st) gs gs (last_eval_step st) (patience st) ppl spd in
  ([StatsReport gs], if is_overflow then Break else Next, st1).

(** Lines 105 and 127: a step that succeeded. *)
Definition step_done (st : loop_state) : loop_state :=
  let c := Config.set_epoch_step (Config.epoch_step (config st) + 1) (config st) in
  mk_state c (update_stats (global_step st)) (last_stats_step st)
           (last_eval_step st) (patience st) (train_ppl st) (speed st).

(** Lines 101-176: one pass through the body of the [while]. *)
Definition loop_body (i : iter_in) (st : loop_state) : trace * flow * loop_state :=
  if step_ok i then
    let st1 := step_done st in
    if stats_due st1 then
      let '(tr2, fl, st2) := stats_report i st1 in
      match fl with
      | Break => (ModelTrain true :: tr2, Break, st2)
      | Next =>
          let (tr3, st3) := maybe_eval i st2 in
          (ModelTrain true :: tr2 ++ tr3, Next, st3)
      end
    else
      let (tr3, st3) := maybe_eval i st1 in
      (ModelTrain true :: tr3, Next, st3)
  else
    let (tr, st1) := epoch_rollover st in
    (ModelTrain false :: tr, Next, st1).

(** Line 99: the condition of the [while]. *)
Definition loop_cond (st : loop_state) : bool :=
  (Config.epoch (config st) <? Config.num_train_epochs (config st))
  && (0 <? patience st).

(** Why the loop was left: its condition turned false, or the [break]. *)
Inductive exit_kind : Type := CondFalse | OverflowBreak.

Inductive loop_exit : Type :=
| Exited (k : exit_kind) (st : loop_state)
| Starved (st : loop_state).

(** Lines 99-176: the [while] loop, one input per pass. *)
Fixpoint run_loop (ins : list iter_in) (st : loop_state) : trace * loop_exit :=
  if loop_cond st then
    match ins with
    | [] => ([], Starved st)
    | i :: rest =>
        let '(tr, fl, st1) := loop_body i st in
        match fl with
        | Break => (tr, Exited OverflowBreak st1)
        | Next => let (tr', r) := run_loop rest st1 in (tr ++ tr', r)
        end
    end
  else ([], Exited CondFalse st).

(** ** [train] *)

(** Lines 21-24: the assertions at the head of [train]. *)
Definition train_preconditions (c : Config.t) : bool :=
  (2 <=? Config.num_turns c)
  && (if Config.pretrain_enabled c
      then (2 <=? Config.num_pretrain_turns c)
           && (Config.num_pretrain_turns c <=? Config.num_turns c)
      else true).

(** Lines 31-39: the three model bundles. *)
Definition create_models : trace :=
  [PreModelCreation; ModelCreate TrainMode; ModelCreate EvalMode;
   ModelCreate InferMode; PostModelCreation].

(** Lines 52-93: the config is saved, the sessions are opened, the train model
    is created or loaded, the summary writer is opened, the train iterator is
    initialised. *)
Definition open_run (c : Config.t) : trace :=
  let skip_count := Config.batch_size c * Config.epoch_step c in
  [ConfigSave c; SessionOpen TrainMode; SessionOpen EvalMode; SessionOpen InferMode;
   ModelLoad TrainMode; SummaryWriterOpen; IteratorInit skip_count].

Definition prologue (c : Config.t) : trace := create_models ++ open_run c.

(** Lines 74-79: the locals before the loop; [global_step] is what
    [create_or_load_model] returned. *)
Definition init_state (c : Config.t) (global_step : Z) : loop_state :=
  mk_state c global_step global_step global_step (Config.patience c) 0%float 0%float.

(** Lines 178-211: after the loop. *)
Definition close_run : trace :=
  [SummaryWriterClose; SessionClose EvalMode; SessionClose InferMode;
   SessionClose TrainMode].

Definition epilogue (st : loop_state) : trace :=
  CheckpointSave (global_step st)
  :: (if Config.eval_best_model (config st) then [InferBestModel] else [])
  ++ close_run.

(** [train]: [loaded_step] is the step of the loaded checkpoint, [ins] the
    inputs of the successive passes through the loop.  Line 43 divides by
    [batch_size]. *)
Definition train (c : Config.t) (loaded_step : Z) (ins : list iter_in)
  : outcome (exit_kind * loop_state) :=
  if negb (train_preconditions c) then Raised AssertionError []
  else if Config.batch_size c =? 0 then Raised ZeroDivisionError create_models
  else
    let (tr, r) := run_loop ins (init_state c loaded_step) in
    match r with
    | Exited k st => Returned (k, st) (prologue c ++ tr ++ epilogue st)
    | Starved _ => Pending (prologue c ++ tr)
    end.

(** [train] when, after the passes of [ins], the loop is entered once more and
    the call of line 104 raises [e], an exception that is not
    [tf.errors.OutOfRangeError]: the [except] of line 106 does not catch it
    and no other handler or [finally] encloses the loop or the session
    handles of lines 59-64, so [e] leaves [train] from line 104 and lines
    178-211 are not run.  If the loop is over within [ins] the step is not
    called again and the run is that of [train]. *)
Definition train_interrupted (c : Config.t) (loaded_step : Z) (ins : list iter_in)
           (e : exn) : outcome (exit_kind * loop_state) :=
  if negb (train_preconditions c) then Raised AssertionError []
  else if Config.batch_size c =? 0 then Raised ZeroDivisionError create_models
  else
    let (tr, r) := run_loop ins (init_state c loaded_step) in
    match r with
    | Exited k st => Returned (k, st) (prologue c ++ tr ++ epilogue st)
    | Starved _ => Raised e (prologue c ++ tr ++ [ModelTrainRaise])
    end.

Definition outcome_trace {A : Type} (o : outcome A) : trace :=
  match o with
  | Returned _ tr | Raised _ tr | Pending tr => tr
  end.

(** ** [_sample_decode] *)

(** [np.random.randint(low, high)]: an integer of the half-open interval
    [low, high), chosen by the generator's [draw]; [None] is the [ValueError]
    numpy raises when the interval is empty. *)
Definition np_random_randint (low high draw : Z) : option Z :=
  if low <? high then Some (low + draw mod (high - low)) else None.

(** Lines 229-267, for the single id drawn ([size=1]): the id and the example
    that is fed to the model and logged. *)
Definition _sample_decode {A : Type} (eval_data : list A) (draw : Z)
  : outcome (Z * A) :=
  match np_random_randint 0 (Z.of_nat (length eval_data) - 1) draw with
  | None => Raised ValueError []
  | Some decode_id =>
      match nth_error eval_data (Z.to_nat decode_id) with
      | Some x => Returned (decode_id, x) [ModelDecode decode_id]
      | None => Raised IndexError []
      end
  end.

(** ** [test] *)

(** Lines 272-277: the assertions at the head of [test]. *)
Definition test_preconditions (c : Config.t) : bool :=
  (1 <=? Config.n_responses c)
  && (if 0 <? Config.beam_width c
      then Config.n_responses c <=? Config.beam_width c
      else Config.n_responses c =? 1).

(** Lines 279-327: decoding, then perplexity, each in its own session. *)
Definition test_run (c : Config.t) : trace :=
  [PreModelCreation; ModelCreate InferMode; SessionOpen InferMode;
   ModelLoad InferMode; DecodeAndEvaluate (Config.n_responses c);
   SessionClose InferMode;
   ModelCreate EvalMode; SessionOpen EvalMode; ModelLoad EvalMode;
   ComputePerplexity; SessionClose EvalMode].

Definition test (c : Config.t) : outcome unit :=
  if test_preconditions c then Returned tt (test_run c)
  else Raised AssertionError [].

(** ** Observations on states and traces *)

Definition exit_state (r : loop_exit) : loop_state :=
  match r with
  | Exited _ st | Starved st => st
  end.

(** The condition of the [while] is false: the epochs are done or the
    patience is used up. *)
Definition terminal (st : loop_state) : Prop :=
  Config.num_train_epochs (config st) <= Config.epoch (config st)
  \/ patience st <= 0.

(** The pass with input [i] from [st] reaches a statistics report, and the
    report flags an overflow. *)
Definition overflow_detected (i : iter_in) (st : loop_state) : bool :=
  step_ok i && stats_due (step_done st) && snd (stats_out i).

(** What the loop may emit when the config's patience field is [p]: no
    session is opened or closed, no model is built, every saved config carries
    patience [p], every re-initialisation of the iterator skips nothing. *)
Definition loop_event (p : Z) (e : event) : Prop :=
  match e with
  | ConfigSave c => Config.patience c = p
  | IteratorInit skip_count => skip_count = 0
  | ModelTrain _ | SampleDecode | StatsReport _ | AddSummary _ _
  | CheckpointSave _ | InternalEval => True
  | _ => False
  end.

Definition is_open (m : mode) (e : event) : bool :=
  match e with
  | SessionOpen m' => mode_eqb m m'
  | _ => false
  end.

Definition is_close (m : mode) (e : event) : bool :=
  match e with
  | SessionClose m' => mode_eqb m m'
  | _ => false
  end.

(** The number of data-exhausted signals among the inputs. *)
Definition exhausted_count (ins : list iter_in) : nat :=
  length (filter (fun i => negb (step_ok i)) ins).

(** ** Configs, states and inputs of the examples *)

(** Two-turn dialogues, batches of 32, statistics and evaluation every second
    step, three epochs, patience [p], threshold 1.1 (as a binary64 literal),
    no best perplexity yet. *)
Definition run_config (p : Z) : Config.t :=
  Config.mk 2 false 0 32 2 2 3 1000 0 0 p infinity 0x1.199999999999ap+0%float false 1 0.

Definition example_config : Config.t := run_config 3.

Definition example_state (best : float) (p : Z) : loop_state :=
  mk_state (Config.set_best_dev_ppl best example_config) 10 10 8 p 0%float 0%float.

Definition test_config (n_responses beam_width : Z) : Config.t :=
  Config.mk 2 false 0 32 2 2 3 1000 0 0 3 infinity 0x1.199999999999ap+0%float
            false n_responses beam_width.

(** The input of a pass whose step finds the data exhausted, and of a pass
    whose step succeeds. *)
Definition exhausted_in : iter_in := mk_in false (0%float, 0%float, false) 0%float.

Definition step_in (is_overflow : bool) (dev_ppl : float) : iter_in :=
  mk_in true (100%float, 1%float, is_overflow) dev_ppl.

(** A run whose second step brings a report with the overflow flag: the third
    input is never read. *)
Definition overflow_inputs : list iter_in :=
  [step_in false 50; step_in true 50; step_in false 50].

Definition overflow_final : loop_state :=
  mk_state (Config.set_epoch_step 2 (run_config 2)) 2 2 0 2 100%float 1%float.

(** A run with patience 1 that improves to 50 and then degrades to 60: the
    config saved in the cycle that brings the countdown to 0 records 1. *)
Definition degrading_inputs : list iter_in :=
  [step_in false 50; step_in false 50; step_in false 60; step_in false 60].

Definition degraded_config : Config.t :=
  Config.set_epoch_step 4 (Config.set_best_dev_ppl 50 (run_config 1)).

Definition degraded_final : loop_state :=
  mk_state degraded_config 4 4 4 0 100%float 1%float.

(** One-turn dialogues: the first assertion of [train] fails. *)
Definition one_turn_config : Config.t :=
  Config.mk 1 false 0 32 2 2 3 1000 0 0 3 infinity 0x1.199999999999ap+0%float false 1 0.

(** A run resumed at step 7 of epoch 1 with batches of 32 skips 224 examples;
    after the rollover that follows its first step, nothing is skipped. *)
Definition resumed_config : Config.t :=
  Config.set_epoch_step 7 (Config.set_epoch 1 (run_config 2)).

(** ** The fields of a dataset line *)

(** [s.split(sep)] of Python for a separator of one character: the pieces
    between the occurrences of [sep], empty pieces included; never an empty
    list. *)
Fixpoint str_split (sep : Ascii.ascii) (s : String.string) : list String.string :=
  match s with
  | String.EmptyString => [String.EmptyString]
  | String.String ch rest =>
      if Ascii.eqb ch sep then String.EmptyString :: str_split sep rest
      else
        match str_split sep rest with
        | piece :: pieces => String.String ch piece :: pieces
        | [] => [String.String ch String.EmptyString]
        end
  end.

(** [l[-1]]: [None] stands for the [IndexError] on an empty list. *)
Definition py_last {A : Type} (l : list A) : option A :=
  match rev l with
  | [] => None
  | x :: _ => Some x
  end.

Definition tab : Ascii.ascii := "009"%char.

(** Lines 255-256: [utterances = eval_data[decode_id].split("\t")], then
    [sources, target = utterances[:-1], utterances[-1]]. *)
Definition sources_target (line : String.string)
  : option (list String.string * String.string) :=
  let utterances := str_split tab line in
  match py_last utterances with
  | Some target => Some (removelast utterances, target)
  | None => None
  end.

(** Lines 259-261: the numbers under which the sources are logged,
    [t + 1] for [t, src] of [enumerate(sources)]. *)
Definition numbered_sources (sources : list String.string)
  : list (Z * String.string) :=
  combine (map (fun t => Z.of_nat t + 1) (seq 0 (length sources))) sources.

(** Whether the character occurs in the string, and how often. *)
Fixpoint occurrences (ch : Ascii.ascii) (s : String.string) : nat :=
  match s with
  | String.EmptyString => 0%nat
  | String.String ch' rest =>
      ((if Ascii.eqb ch' ch then 1 else 0) + occurrences ch rest)%nat
  end.

(** ** Reading a trace *)

Definition count_events (f : event -> bool) (tr : trace) : nat :=
  length (filter f tr).

Definition is_rollover (e : event) : bool :=
  match e with
  | ModelTrain false => true
  | _ => false
  end.

Definition is_internal_eval (e : event) : bool :=
  match e with
  | InternalEval => true
  | _ => false
  end.

Definition is_infer_best_model (e : event) : bool :=
  match e with
  | InferBestModel => true
  | _ => false
  end.

(** The config of the last [ConfigSave] of the trace, [saved] if it has none:
    what a later run would be resumed from. *)
Definition last_config_save (saved : option Config.t) (tr : trace) : option Config.t :=
  fold_left (fun acc e => match e with ConfigSave c => Some c | _ => acc end)
            tr saved.

(** The number of steps that succeeded since the data was last exhausted,
    from a count of [epoch_step] before the trace. *)
Definition steps_in_epoch (epoch_step : Z) (tr : trace) : Z :=
  fold_left (fun n e => match e with
                        | ModelTrain true => n + 1
                        | ModelTrain false => 0
                        | _ => n
                        end)
            tr epoch_step.

(** ** Relations between configs and between perplexities *)

(** [b'] is [b] or smaller. *)
Definition not_worse (b' b : float) : Prop :=
  b' = b \/ (b' <? b)%float = true.

(** [c'] is [c] but for [epoch], [epoch_step] and [best_dev_ppl]. *)
Definition same_settings (c c' : Config.t) : Prop :=
  c' = Config.set_best_dev_ppl (Config.best_dev_ppl c')
         (Config.set_epoch_step (Config.epoch_step c')
            (Config.set_epoch (Config.epoch c') c)).

(** [c'] is [c] but for [epoch_step]. *)
Definition same_but_epoch_step (c c' : Config.t) : Prop :=
  c' = Config.set_epoch_step (Config.epoch_step c') c.

(** * Properties *)

(** ** Comparisons of binary64 floats *)

Section FloatOrder.

Lemma SFcompare_antisym (x y : spec_float) :
  SFcompare y x = option_map CompOpp (SFcompare x y).
Proof.
  destruct x as [sx | sx | | sx mx ex], y as [sy | sy | | sy my ey];
    try reflexivity;
    try (destruct sx; reflexivity);
    try (destruct sy; reflexivity);
    try (destruct sx, sy; reflexivity).
  cbn [SFcompare option_map].
  rewrite (Z.compare_antisym ex ey).
  assert (Hm : Pos.compare_cont Eq my mx = CompOpp (Pos.compare_cont Eq mx my))
    by (rewrite Pos.compare_cont_antisym; reflexivity).
  rewrite Hm.
  destruct sx, sy, (ex ?= ey); cbn; try reflexivity;
    destruct (Pos.compare_cont Eq mx my); reflexivity.
Qed.

(** [x <= y] rules out [y < x], also when an operand is infinite or a NaN. *)
Lemma leb_true_ltb_false (x y : float) :
  (x <=? y)%float = true -> (y <? x)%float = false.
Proof.
  rewrite leb_spec, ltb_spec.
  unfold SFleb, SFltb.
  rewrite (SFcompare_antisym (Prim2SF x) (Prim2SF y)).
  destruct (SFcompare (Prim2SF x) (Prim2SF y)) as [[ | | ] | ];
    cbn; congruence.
Qed.

End FloatOrder.

(** ** The evaluation cycle: best perplexity and patience *)

Lemma compare_dev_ppl_frame (dev_ppl : float) (st : loop_state) :
  let st' := compare_dev_ppl dev_ppl st in
  global_step st' = global_step st
  /\ last_stats_step st' = last_stats_step st
  /\ last_eval_step st' = last_eval_step st
  /\ Config.patience (config st') = Config.patience (config st)
  /\ Config.epoch (config st') = Config.epoch (config st)
  /\ Config.epoch_step (config st') = Config.epoch_step (config st)
  /\ Config.num_train_epochs (config st') = Config.num_train_epochs (config st).
Proof.
  unfold compare_dev_ppl.
  destruct (dev_ppl <? _)%float; [ | destruct (_ <? dev_ppl)%float ];
    cbn; repeat split; reflexivity.
Qed.

(** C1.  In an evaluation cycle with dev perplexity [dev_ppl]:
    if [dev_ppl < best_dev_ppl], the best perplexity becomes [dev_ppl] and the
    patience is reset to [config.patience]; otherwise, if
    [dev_ppl > degrade_threshold * best_dev_ppl], the patience drops by exactly
    one and the best perplexity is kept; and whenever
    [best_dev_ppl <= dev_ppl <= degrade_threshold * best_dev_ppl], both are
    left as they were (the dead zone). *)
Theorem eval_cycle_patience_rule (dev_ppl : float) (st : loop_state) :
  let c := config st in
  let st' := snd (eval_cycle dev_ppl st) in
  ((dev_ppl <? Config.best_dev_ppl c)%float = true ->
     Config.best_dev_ppl (config st') = dev_ppl
     /\ patience st' = Config.patience c)
  /\ ((dev_ppl <? Config.best_dev_ppl c)%float = false ->
      (Config.degrade_threshold c * Config.best_dev_ppl c <? dev_ppl)%float = true ->
        patience st' = patience st - 1
        /\ Config.best_dev_ppl (config st') = Config.best_dev_ppl c)
  /\ ((Config.best_dev_ppl c <=? dev_ppl)%float = true ->
      (dev_ppl <=? Config.degrade_threshold c * Config.best_dev_ppl c)%float = true ->
        patience st' = patience st
        /\ Config.best_dev_ppl (config st') = Config.best_dev_ppl c).
Proof.
  cbn zeta. unfold eval_cycle, compare_dev_ppl. cbn [snd config patience].
  split; [ | split ].
  - intros Hlt. rewrite Hlt. cbn. split; reflexivity.
  - intros Hge Hgt. rewrite Hge, Hgt. cbn. split; reflexivity.
  - intros Hle1 Hle2.
    rewrite (leb_true_ltb_false _ _ Hle1), (leb_true_ltb_false _ _ Hle2).
    cbn. split; reflexivity.
Qed.

(** The three branches at best = 50, threshold = 1.1, patience 2 of 3:
    45 improves, 60 degrades, 52 falls in the dead zone. *)
Lemma eval_cycle_patience_rule_witness :
  (let st' := snd (eval_cycle 45 (example_state 50 2)) in
   Config.best_dev_ppl (config st') = 45%float /\ patience st' = 3)
  /\ (let st' := snd (eval_cycle 60 (example_state 50 2)) in
      patience st' = 2 - 1 /\ Config.best_dev_ppl (config st') = 50%float)
  /\ (let st' := snd (eval_cycle 52 (example_state 50 2)) in
      patience st' = 2 /\ Config.best_dev_ppl (config st') = 50%float).
Proof.
  split; [ | split ].
  - apply (eval_cycle_patience_rule 45 (example_state 50 2)).
    vm_compute. reflexivity.
  - apply (eval_cycle_patience_rule 60 (example_state 50 2));
      vm_compute; reflexivity.
  - apply (eval_cycle_patience_rule 52 (example_state 50 2));
      vm_compute; reflexivity.
Defined.

(** The scenario of the spec: dev perplexities 50, 60, 70 from an infinite
    best perplexity, threshold 1.1, patience 3. *)
Example eval_cycles_50_60_70 :
  let st0 := example_state infinity 3 in
  let st1 := snd (eval_cycle 50 st0) in
  let st2 := snd (eval_cycle 60 st1) in
  let st3 := snd (eval_cycle 70 st2) in
  (Config.best_dev_ppl (config st1), patience st1) = (50%float, 3)
  /\ (Config.best_dev_ppl (config st2), patience st2) = (50%float, 2)
  /\ (Config.best_dev_ppl (config st3), patience st3) = (50%float, 1).
Proof. vm_compute. repeat split. Qed.

(** ** Epoch rollover *)

(** C2.  When the training step signals that the data is exhausted, the pass
    runs a sample decode, adds exactly one to [epoch], sets [epoch_step] to
    exactly zero, saves the config so updated, re-initialises the train
    iterator with skip count 0 and goes back to the loop head; [global_step]
    and the other locals are left alone. *)
Theorem epoch_rollover_effect (i : iter_in) (st : loop_state) :
  step_ok i = false ->
  let r := loop_body i st in
  let st' := snd r in
  fst (fst r) = [ModelTrain false; SampleDecode; ConfigSave (config st'); IteratorInit 0]
  /\ snd (fst r) = Next
  /\ Config.epoch (config st') = Config.epoch (config st) + 1
  /\ Config.epoch_step (config st') = 0
  /\ global_step st' = global_step st
  /\ last_stats_step st' = last_stats_step st
  /\ last_eval_step st' = last_eval_step st
  /\ patience st' = patience st.
Proof.
  intros Hok. unfold loop_body. rewrite Hok. cbn.
  repeat split; reflexivity.
Qed.

Lemma epoch_rollover_effect_witness :
  let st := mk_state (Config.set_epoch_step 7 example_config) 10 10 8 3 0%float 0%float in
  let r := loop_body exhausted_in st in
  let st' := snd r in
  fst (fst r) = [ModelTrain false; SampleDecode; ConfigSave (config st'); IteratorInit 0]
  /\ snd (fst r) = Next
  /\ Config.epoch (config st') = 0 + 1
  /\ Config.epoch_step (config st') = 0
  /\ global_step st' = 10
  /\ last_stats_step st' = 10
  /\ last_eval_step st' = 8
  /\ patience st' = 3.
Proof.
  intros st.
  apply (epoch_rollover_effect exhausted_in st).
  reflexivity.
Defined.

(** ** What one pass through the loop leaves alone *)

Lemma maybe_eval_frame (i : iter_in) (st : loop_state) :
  let st' := snd (maybe_eval i st) in
  global_step st' = global_step st
  /\ Config.patience (config st') = Config.patience (config st)
  /\ Config.epoch (config st') = Config.epoch (config st)
  /\ Config.num_train_epochs (config st') = Config.num_train_epochs (config st).
Proof.
  unfold maybe_eval. destruct (eval_due st); cbn; [ | tauto ].
  match goal with
  | |- context [compare_dev_ppl ?d ?s] =>
      pose proof (compare_dev_ppl_frame d s) as H
  end.
  cbn in H. tauto.
Qed.

Lemma loop_body_frame (i : iter_in) (st : loop_state) :
  let st' := snd (loop_body i st) in
  global_step st' = (if step_ok i then update_stats (global_step st) else global_step st)
  /\ Config.patience (config st') = Config.patience (config st)
  /\ Config.epoch (config st')
     = (if step_ok i then Config.epoch (config st) else Config.epoch (config st) + 1)
  /\ Config.num_train_epochs (config st') = Config.num_train_epochs (config st).
Proof.
  unfold loop_body. destruct (step_ok i); [ | cbn; tauto ].
  destruct (stats_due (step_done st)).
  - unfold stats_report. destruct (stats_out i) as [[ppl spd] [ | ]].
    + cbn. tauto.
    + match goal with
      | |- context [maybe_eval i ?s] =>
          pose proof (maybe_eval_frame i s) as H; destruct (maybe_eval i s)
      end.
      cbn in *. tauto.
  - pose proof (maybe_eval_frame i (step_done st)) as H.
    destruct (maybe_eval i (step_done st)). cbn in *. tauto.
Qed.

(** ** Leaving the loop *)

Lemma loop_cond_false_iff (st : loop_state) :
  loop_cond st = false <-> terminal st.
Proof.
  unfold loop_cond, terminal. rewrite andb_false_iff, !Z.ltb_ge. tauto.
Qed.

Lemma loop_cond_true_iff (st : loop_state) :
  loop_cond st = true <-> ~ terminal st.
Proof.
  rewrite <- loop_cond_false_iff. destruct (loop_cond st); split; congruence.
Qed.

Lemma loop_body_break_iff (i : iter_in) (st : loop_state) :
  snd (fst (loop_body i st)) = Break <-> overflow_detected i st = true.
Proof.
  unfold loop_body, overflow_detected.
  destruct (step_ok i); cbn [andb].
  - destruct (stats_due (step_done st)); cbn [andb].
    + unfold stats_report. destruct (stats_out i) as [[ppl spd] [ | ]]; cbn [snd].
      * cbn. tauto.
      * destruct (maybe_eval i _). cbn. split; discriminate.
    + destruct (maybe_eval i _). cbn. split; discriminate.
  - cbn. split; discriminate.
Qed.

Lemma run_loop_exit_sound (ins : list iter_in) :
  forall st tr k st',
    run_loop ins st = (tr, Exited k st') ->
    (k = CondFalse /\ terminal st')
    \/ (k = OverflowBreak
        /\ exists i st0, ~ terminal st0 /\ overflow_detected i st0 = true
                         /\ st' = snd (loop_body i st0)).
Proof.
  induction ins as [ | i rest IH]; intros st tr k st' Hrun; cbn in Hrun.
  - destruct (loop_cond st) eqn:Hc; inversion Hrun; subst.
    left. split; [ reflexivity | now apply loop_cond_false_iff ].
  - destruct (loop_cond st) eqn:Hc.
    + destruct (loop_body i st) as [[tr1 fl] st1] eqn:Hb.
      destruct fl.
      * destruct (run_loop rest st1) as [tr2 r] eqn:Hr.
        inversion Hrun; subst. eapply IH; eassumption.
      * inversion Hrun; subst. right. split; [ reflexivity | ].
        exists i, st. repeat split.
        -- now apply loop_cond_true_iff.
        -- apply loop_body_break_iff. now rewrite Hb.
        -- now rewrite Hb.
    + inversion Hrun; subst.
      left. split; [ reflexivity | now apply loop_cond_false_iff ].
Qed.

(** C3.  The loop is left exactly when a terminal condition first holds.  At
    the loop head, if [epoch >= num_train_epochs] or [patience <= 0] the loop
    is over at once, with no further pass, whatever the other value is; if
    neither holds the pass is run, and the loop is over after it exactly when
    its statistics report flags an overflow, otherwise it goes on from the
    state the pass left.  Conversely the loop is only ever left in a state
    where the condition is false, or by the overflow [break]. *)
Theorem loop_exit_conditions (i : iter_in) (rest ins : list iter_in) (st : loop_state) :
  (patience st <= 0 -> run_loop ins st = ([], Exited CondFalse st))
  /\ (Config.num_train_epochs (config st) <= Config.epoch (config st) ->
      run_loop ins st = ([], Exited CondFalse st))
  /\ (~ terminal st -> overflow_detected i st = true ->
      run_loop (i :: rest) st
      = (fst (fst (loop_body i st)), Exited OverflowBreak (snd (loop_body i st))))
  /\ (~ terminal st -> overflow_detected i st = false ->
      run_loop (i :: rest) st
      = (fst (fst (loop_body i st)) ++ fst (run_loop rest (snd (loop_body i st))),
         snd (run_loop rest (snd (loop_body i st)))))
  /\ (forall tr k st', run_loop ins st = (tr, Exited k st') ->
      (k = CondFalse /\ terminal st')
      \/ (k = OverflowBreak
          /\ exists i0 st0, ~ terminal st0 /\ overflow_detected i0 st0 = true
                            /\ st' = snd (loop_body i0 st0))).
Proof.
  assert (Hstop : terminal st -> run_loop ins st = ([], Exited CondFalse st)).
  { intros Ht. apply loop_cond_false_iff in Ht.
    destruct ins; cbn; rewrite Ht; reflexivity. }
  split; [ | split; [ | split; [ | split ] ] ].
  - intros Hp. apply Hstop. right. exact Hp.
  - intros He. apply Hstop. left. exact He.
  - intros Hnt Hov. apply loop_cond_true_iff in Hnt.
    apply loop_body_break_iff in Hov.
    cbn. rewrite Hnt.
    destruct (loop_body i st) as [[tr1 fl] st1]. cbn in *. subst fl. reflexivity.
  - intros Hnt Hov. apply loop_cond_true_iff in Hnt.
    assert (Hfl : snd (fst (loop_body i st)) = Next).
    { destruct (snd (fst (loop_body i st))) eqn:Hfl; [ reflexivity | ].
      apply loop_body_break_iff in Hfl. congruence. }
    cbn. rewrite Hnt.
    destruct (loop_body i st) as [[tr1 fl] st1]. cbn in *. subst fl.
    destruct (run_loop rest st1). reflexivity.
  - apply run_loop_exit_sound.
Qed.

(** Patience 0 in epoch 0 of 3; epoch 3 of 3 with full patience; an overflow
    flagged at the first pass, the second input never read; and a plain pass
    followed by the end of the inputs. *)
Lemma loop_exit_conditions_witness :
  let ins := [step_in false 50; step_in false 50] in
  let st_p0 := mk_state example_config 10 9 8 0 0%float 0%float in
  let st_e3 := mk_state (Config.set_epoch 3 example_config) 10 9 8 3 0%float 0%float in
  let st := mk_state example_config 10 9 10 3 0%float 0%float in
  run_loop ins st_p0 = ([], Exited CondFalse st_p0)
  /\ run_loop ins st_e3 = ([], Exited CondFalse st_e3)
  /\ run_loop (step_in true 50 :: ins) st
     = ([ModelTrain true; StatsReport 11],
        Exited OverflowBreak
          (mk_state (Config.set_epoch_step 1 example_config) 11 11 10 3 100%float 1%float))
  /\ run_loop [step_in false 50] st
     = ([ModelTrain true; StatsReport 11],
        Starved
          (mk_state (Config.set_epoch_step 1 example_config) 11 11 10 3 100%float 1%float)).
Proof.
  intros ins st_p0 st_e3 st.
  split; [ | split; [ | split ] ].
  - destruct (loop_exit_conditions (step_in false 50) [] ins st_p0) as (H & _).
    apply H. unfold st_p0. cbn. lia.
  - destruct (loop_exit_conditions (step_in false 50) [] ins st_e3) as (_ & H & _).
    apply H. unfold st_e3. cbn. lia.
  - destruct (loop_exit_conditions (step_in true 50) ins [] st) as (_ & _ & H & _).
    apply H.
    + unfold terminal, st. cbn. lia.
    + reflexivity.
  - destruct (loop_exit_conditions (step_in false 50) [] [] st) as (_ & _ & _ & H & _).
    apply H.
    + unfold terminal, st. cbn. lia.
    + reflexivity.
Defined.

(** ** [test]: the checks before any work *)

(** C4.  [test] goes on to build models and decode exactly when
    [n_responses >= 1] and, with beam search on ([beam_width > 0]),
    [n_responses <= beam_width], with beam search off, [n_responses = 1];
    otherwise it raises the assertion error before any call was made. *)
Theorem test_accepts_iff (c : Config.t) :
  let accepted :=
    1 <= Config.n_responses c
    /\ (0 < Config.beam_width c -> Config.n_responses c <= Config.beam_width c)
    /\ (Config.beam_width c <= 0 -> Config.n_responses c = 1) in
  (accepted <-> test c = Returned tt (test_run c))
  /\ (~ accepted <-> test c = Raised AssertionError []).
Proof.
  cbn zeta. unfold test, test_preconditions.
  destruct (Z.leb_spec 1 (Config.n_responses c)) as [Hn | Hn];
    destruct (Z.ltb_spec 0 (Config.beam_width c)) as [Hb | Hb]; cbn [andb];
    [ destruct (Z.leb_spec (Config.n_responses c) (Config.beam_width c))
    | destruct (Z.eqb_spec (Config.n_responses c) 1)
    | | ];
    (split; split;
     [ intros Ha; try reflexivity; exfalso; lia
     | intros Heq; try discriminate Heq; lia
     | intros Hna; try reflexivity; exfalso; apply Hna; lia
     | intros Heq; try discriminate Heq; lia ]).
Qed.

(** Three responses with beam width 5 are accepted; three responses without
    beam search are rejected, with nothing run. *)
Lemma test_accepts_iff_witness :
  test (test_config 3 5) = Returned tt (test_run (test_config 3 5))
  /\ test (test_config 3 0) = Raised AssertionError [].
Proof.
  split.
  - apply (test_accepts_iff (test_config 3 5)). cbn. lia.
  - apply (test_accepts_iff (test_config 3 0)). cbn. lia.
Defined.

(** ** [_sample_decode]: which example is picked *)

Lemma np_random_randint_range (low high draw id : Z) :
  np_random_randint low high draw = Some id -> low <= id < high.
Proof.
  unfold np_random_randint.
  destruct (Z.ltb_spec low high) as [Hlt | Hge]; [ | discriminate ].
  intros [= <-].
  pose proof (Z.mod_pos_bound draw (high - low)). lia.
Qed.

(** C5, as the code has it.  The upper bound [len(eval_data) - 1] is handed to
    [np.random.randint], which excludes it: on a dataset of one example the
    interval is empty and the call raises, whatever the generator draws; on a
    longer dataset every index below [len(eval_data) - 1] can be picked (by
    the draw equal to it) and the last index never is. *)
Theorem sample_decode_excludes_last (A : Type) (x : A) (eval_data : list A) (draw : Z) :
  _sample_decode [x] draw = Raised ValueError []
  /\ (forall id y tr,
        _sample_decode eval_data draw = Returned (id, y) tr ->
        0 <= id < Z.of_nat (length eval_data) - 1)
  /\ (forall id,
        0 <= id < Z.of_nat (length eval_data) - 1 ->
        exists y, _sample_decode eval_data id = Returned (id, y) [ModelDecode id]).
Proof.
  split; [ reflexivity | split ].
  - intros id y tr. unfold _sample_decode.
    destruct (np_random_randint 0 _ draw) as [k | ] eqn:Hk; [ | discriminate ].
    apply np_random_randint_range in Hk.
    destruct (nth_error eval_data (Z.to_nat k)); [ | discriminate ].
    intros [= <- _ _]. exact Hk.
  - intros id Hid. unfold _sample_decode, np_random_randint.
    destruct (Z.ltb_spec 0 (Z.of_nat (length eval_data) - 1)) as [Hlt | Hge];
      [ | lia ].
    rewrite Z.sub_0_r, Z.add_0_l, Z.mod_small by lia.
    destruct (nth_error eval_data (Z.to_nat id)) as [y | ] eqn:Hnth.
    + exists y. reflexivity.
    + apply nth_error_None in Hnth. lia.
Qed.

(** One example: the call raises.  Three examples: index 2 is out of reach,
    indices 0 and 1 are picked by the draws 0 and 1. *)
Example sample_decode_one_and_three :
  _sample_decode [7] 0 = Raised ValueError []
  /\ map (_sample_decode [7; 8; 9]) [0; 1; 2; 3]
     = [Returned (0, 7) [ModelDecode 0]; Returned (1, 8) [ModelDecode 1];
        Returned (0, 7) [ModelDecode 0]; Returned (1, 8) [ModelDecode 1]].
Proof. split; reflexivity. Qed.

(** On three examples the draw 1 picks index 1, below the last index 2. *)
Lemma sample_decode_excludes_last_witness :
  0 <= 1 < Z.of_nat (length [7; 8; 9]) - 1
  /\ exists y, _sample_decode [7; 8; 9] 1 = Returned (1, y) [ModelDecode 1].
Proof.
  destruct (sample_decode_excludes_last Z 7 [7; 8; 9] 1) as (_ & Hrange & Hpick).
  split.
  - apply (Hrange 1 8 [ModelDecode 1]). reflexivity.
  - apply Hpick. cbn. lia.
Defined.

(** ** [global_step] *)

Lemma loop_body_global_step_le (i : iter_in) (st : loop_state) :
  global_step st <= global_step (snd (loop_body i st)).
Proof.
  destruct (loop_body_frame i st) as (Hgs & _). rewrite Hgs.
  unfold update_stats. destruct (step_ok i); lia.
Qed.

Lemma run_loop_global_step_le (ins : list iter_in) :
  forall st, global_step st <= global_step (exit_state (snd (run_loop ins st))).
Proof.
  induction ins as [ | i rest IH]; intros st; cbn.
  - destruct (loop_cond st); cbn; lia.
  - destruct (loop_cond st); [ | cbn; lia ].
    pose proof (loop_body_global_step_le i st) as Hb.
    destruct (loop_body i st) as [[tr1 fl] st1]. cbn in Hb.
    destruct fl; [ | cbn; lia ].
    specialize (IH st1). destruct (run_loop rest st1) as [tr2 r]. cbn in *. lia.
Qed.

(** C6.  [global_step] never decreases: a successful step raises it, and an
    epoch rollover, a statistics report and an evaluation cycle keep it; so
    after one pass through the loop, and after any number of passes, it is at
    least what it was, and [train] returns with a [global_step] that is at
    least the one it loaded. *)
Theorem global_step_never_decreases
  (i : iter_in) (ins : list iter_in) (st : loop_state) (c : Config.t) (loaded_step : Z) :
  global_step st <= global_step (step_done st)
  /\ global_step (snd (epoch_rollover st)) = global_step st
  /\ global_step (snd (stats_report i st)) = global_step st
  /\ global_step (snd (eval_cycle (dev_ppl_out i) st)) = global_step st
  /\ global_step st <= global_step (snd (loop_body i st))
  /\ global_step st <= global_step (exit_state (snd (run_loop ins st)))
  /\ (forall k st' tr, train c loaded_step ins = Returned (k, st') tr ->
        loaded_step <= global_step st').
Proof.
  repeat split.
  - cbn. unfold update_stats. lia.
  - unfold stats_report. destruct (stats_out i) as [[ppl spd] o]. reflexivity.
  - unfold eval_cycle. cbn [snd].
    match goal with
    | |- context [compare_dev_ppl ?d ?s] =>
        destruct (compare_dev_ppl_frame d s) as (Hgs & _)
    end.
    exact Hgs.
  - apply loop_body_global_step_le.
  - apply run_loop_global_step_le.
  - intros k st' tr. unfold train.
    destruct (negb (train_preconditions c)); [ discriminate | ].
    destruct (Config.batch_size c =? 0); [ discriminate | ].
    pose proof (run_loop_global_step_le ins (init_state c loaded_step)) as Hle.
    destruct (run_loop ins (init_state c loaded_step)) as [tr1 [k1 st1 | st1]];
      [ | discriminate ].
    intros [= _ <- _]. exact Hle.
Qed.

(** A pass with a successful step from step 10, and a run of [train] that
    loads step 0 and returns at step 2. *)
Lemma global_step_never_decreases_witness :
  10 <= global_step (snd (loop_body (step_in false 50) (example_state 50 2)))
  /\ 0 <= global_step overflow_final.
Proof.
  destruct (global_step_never_decreases
              (step_in false 50) overflow_inputs (example_state 50 2)
              (run_config 2) 0) as (_ & _ & _ & _ & Hbody & _ & Htrain).
  split.
  - exact Hbody.
  - apply (Htrain OverflowBreak overflow_final
             (prologue (run_config 2)
              ++ [ModelTrain true; ModelTrain true; StatsReport 2]
              ++ epilogue overflow_final)).
    vm_compute. reflexivity.
Defined.

(** ** The events of the loop *)

Lemma maybe_eval_events (i : iter_in) (st : loop_state) :
  Forall (loop_event (Config.patience (config st))) (fst (maybe_eval i st)).
Proof.
  unfold maybe_eval. destruct (eval_due st); cbn; [ | constructor ].
  repeat constructor.
  match goal with
  | |- context [compare_dev_ppl ?d ?s] =>
      destruct (compare_dev_ppl_frame d s) as (_ & _ & _ & Hp & _)
  end.
  exact Hp.
Qed.

Lemma loop_body_events (i : iter_in) (st : loop_state) :
  Forall (loop_event (Config.patience (config st))) (fst (fst (loop_body i st))).
Proof.
  unfold loop_body. destruct (step_ok i).
  - destruct (stats_due (step_done st)).
    + unfold stats_report. destruct (stats_out i) as [[ppl spd] [ | ]].
      * cbn. repeat constructor.
      * match goal with
        | |- context [maybe_eval i ?s] =>
            pose proof (maybe_eval_events i s) as H; destruct (maybe_eval i s)
        end.
        cbn in *. repeat constructor. exact H.
    + pose proof (maybe_eval_events i (step_done st)) as H.
      destruct (maybe_eval i (step_done st)). cbn in *. constructor; [ exact I | exact H ].
  - cbn. repeat constructor.
Qed.

Lemma run_loop_events (ins : list iter_in) :
  forall st, Forall (loop_event (Config.patience (config st))) (fst (run_loop ins st)).
Proof.
  induction ins as [ | i rest IH]; intros st; cbn.
  - destruct (loop_cond st); constructor.
  - destruct (loop_cond st); [ | constructor ].
    pose proof (loop_body_events i st) as Hb.
    destruct (loop_body_frame i st) as (_ & Hp & _).
    destruct (loop_body i st) as [[tr1 fl] st1]. cbn in Hb, Hp.
    destruct fl; [ | exact Hb ].
    specialize (IH st1). rewrite Hp in IH.
    destruct (run_loop rest st1) as [tr2 r]. cbn in *.
    apply Forall_app. split; assumption.
Qed.

Lemma loop_body_break_trace (i : iter_in) (st : loop_state) :
  snd (fst (loop_body i st)) = Break ->
  fst (fst (loop_body i st))
  = [ModelTrain true; StatsReport (global_step (snd (loop_body i st)))]
  /\ global_step (snd (loop_body i st)) = update_stats (global_step st).
Proof.
  unfold loop_body. destruct (step_ok i).
  - destruct (stats_due (step_done st)).
    + unfold stats_report. destruct (stats_out i) as [[ppl spd] [ | ]].
      * cbn. split; reflexivity.
      * destruct (maybe_eval i _). cbn. discriminate.
    + destruct (maybe_eval i _). cbn. discriminate.
  - cbn. discriminate.
Qed.

Lemma run_loop_overflow_tail (ins : list iter_in) :
  forall st tr st',
    run_loop ins st = (tr, Exited OverflowBreak st') ->
    exists pre, tr = pre ++ [ModelTrain true; StatsReport (global_step st')].
Proof.
  induction ins as [ | i rest IH]; intros st tr st' Hrun; cbn in Hrun.
  - destruct (loop_cond st); discriminate.
  - destruct (loop_cond st); [ | discriminate ].
    pose proof (loop_body_break_trace i st) as Hb.
    destruct (loop_body i st) as [[tr1 fl] st1]. cbn in Hb.
    destruct fl.
    + destruct (run_loop rest st1) as [tr2 r] eqn:Hr.
      inversion Hrun; subst.
      destruct (IH _ _ _ Hr) as [pre Hpre].
      exists (tr1 ++ pre). rewrite Hpre, app_assoc. reflexivity.
    + inversion Hrun; subst.
      destruct (Hb eq_refl) as [Htr _].
      exists []. exact Htr.
Qed.

(** [train] returns exactly when the assertions hold, the batch size is not
    zero and the loop is left within the given inputs; its trace is then the
    prologue, the events of the loop and the epilogue. *)
Lemma train_returned_inv (c : Config.t) (loaded_step : Z) (ins : list iter_in)
      (k : exit_kind) (st : loop_state) (tr : trace) :
  train c loaded_step ins = Returned (k, st) tr ->
  exists body,
    run_loop ins (init_state c loaded_step) = (body, Exited k st)
    /\ tr = prologue c ++ body ++ epilogue st.
Proof.
  unfold train.
  destruct (negb (train_preconditions c)); [ discriminate | ].
  destruct (Config.batch_size c =? 0); [ discriminate | ].
  destruct (run_loop ins (init_state c loaded_step)) as [body [k1 st1 | st1]];
    [ | discriminate ].
  intros [= <- <- <-]. exists body. split; reflexivity.
Qed.

(** ** Overflow and the final checkpoint *)

Lemma run_loop_starved_cond (ins : list iter_in) :
  forall st tr st', run_loop ins st = (tr, Starved st') -> loop_cond st' = true.
Proof.
  induction ins as [ | i rest IH]; intros st tr st' Hrun; cbn in Hrun.
  - destruct (loop_cond st) eqn:Hc; inversion Hrun; subst. exact Hc.
  - destruct (loop_cond st); [ | discriminate ].
    destruct (loop_body i st) as [[tr1 fl] st1].
    destruct fl; [ | discriminate ].
    destruct (run_loop rest st1) as [tr2 r] eqn:Hr.
    inversion Hrun; subst. eapply IH. exact Hr.
Qed.

(** A loop still running after [ins1] goes on with the inputs that follow. *)
Lemma run_loop_app (ins1 ins2 : list iter_in) :
  forall st tr1 st1,
    run_loop ins1 st = (tr1, Starved st1) ->
    run_loop (ins1 ++ ins2) st
    = (tr1 ++ fst (run_loop ins2 st1), snd (run_loop ins2 st1)).
Proof.
  induction ins1 as [ | i rest IH]; intros st tr1 st1 Hrun.
  - cbn in Hrun. destruct (loop_cond st); inversion Hrun; subst.
    cbn [app]. destruct (run_loop ins2 st1). reflexivity.
  - cbn [app run_loop] in *.
    destruct (loop_cond st); [ | discriminate ].
    destruct (loop_body i st) as [[tr fl] st'].
    destruct fl; [ | discriminate ].
    destruct (run_loop rest st') as [tr' r] eqn:Hr.
    inversion Hrun; subst.
    rewrite (IH _ _ _ Hr), <- app_assoc. reflexivity.
Qed.

(** [train] returns as soon as its loop is left, with the final checkpoint in
    its trace. *)
Lemma train_returns_when_loop_exits
      (c : Config.t) (loaded_step : Z) (ins : list iter_in)
      (body : trace) (k : exit_kind) (st : loop_state) :
  train_preconditions c = true ->
  Config.batch_size c <> 0 ->
  run_loop ins (init_state c loaded_step) = (body, Exited k st) ->
  train c loaded_step ins
  = Returned (k, st)
      (prologue c ++ body
       ++ CheckpointSave (global_step st)
          :: (if Config.eval_best_model (config st) then [InferBestModel] else [])
          ++ close_run).
Proof.
  intros Hpre Hbs Hrun. unfold train.
  rewrite Hpre. cbn [negb]. apply Z.eqb_neq in Hbs. rewrite Hbs, Hrun.
  reflexivity.
Qed.

(** C7.  Let the assertions of [train] hold and the batch size be non-zero.
    If, with the loop still running after the passes of [ins1], the
    statistics report of the next pass flags an overflow, then [train] returns
    there and then: that pass adds the step and the report only (no
    evaluation cycle), none of the inputs [rest] that follow is read, so no
    further step is run, and the report is followed at once by the save of a
    checkpoint tagged with the [global_step] of that step.  And on every way
    out of the loop, once the loop is left [train] returns, and its trace is
    the prologue, the events of the loop, then the save of a checkpoint
    tagged with the final [global_step], then at most the evaluation of the
    best model and the closing calls, with no step after it; conversely a run
    that returned left its loop in this way. *)
Theorem overflow_stops_and_final_checkpoint
  (c : Config.t) (loaded_step : Z) (ins1 : list iter_in) (i : iter_in)
  (rest ins : list iter_in) :
  train_preconditions c = true ->
  Config.batch_size c <> 0 ->
  (forall tr1 st0,
     run_loop ins1 (init_state c loaded_step) = (tr1, Starved st0) ->
     overflow_detected i st0 = true ->
     let st' := snd (loop_body i st0) in
     global_step st' = update_stats (global_step st0)
     /\ train c loaded_step (ins1 ++ i :: rest)
        = Returned (OverflowBreak, st')
            (prologue c ++ (tr1 ++ [ModelTrain true; StatsReport (global_step st')])
             ++ CheckpointSave (global_step st')
                :: (if Config.eval_best_model (config st')
                    then [InferBestModel] else [])
                ++ close_run))
  /\ (forall body k st,
        run_loop ins (init_state c loaded_step) = (body, Exited k st) ->
        train c loaded_step ins
        = Returned (k, st)
            (prologue c ++ body
             ++ CheckpointSave (global_step st)
                :: (if Config.eval_best_model (config st)
                    then [InferBestModel] else [])
                ++ close_run))
  /\ (forall k st tr,
        train c loaded_step ins = Returned (k, st) tr ->
        exists body,
          run_loop ins (init_state c loaded_step) = (body, Exited k st)
          /\ tr = prologue c ++ body
                  ++ CheckpointSave (global_step st)
                     :: (if Config.eval_best_model (config st)
                         then [InferBestModel] else [])
                     ++ close_run
          /\ (k = OverflowBreak ->
              exists pre,
                body = pre ++ [ModelTrain true; StatsReport (global_step st)])).
Proof.
  intros Hpre Hbs. split; [ | split ].
  - intros tr1 st0 Hrun Hov. cbn zeta.
    pose proof (run_loop_starved_cond _ _ _ _ Hrun) as Hc.
    apply loop_body_break_iff in Hov.
    destruct (loop_body_break_trace i st0 Hov) as [Htr Hgs].
    split; [ exact Hgs | ].
    apply train_returns_when_loop_exits; [ exact Hpre | exact Hbs | ].
    rewrite (run_loop_app ins1 (i :: rest) _ _ _ Hrun).
    cbn [run_loop]. rewrite Hc.
    destruct (loop_body i st0) as [[tr fl] st1]. cbn [fst snd] in *. subst fl tr.
    reflexivity.
  - intros body k st Hrun.
    apply train_returns_when_loop_exits; assumption.
  - intros k st tr Htrain.
    destruct (train_returned_inv _ _ _ _ _ _ Htrain) as (body & Hrun & Htr).
    exists body. split; [ exact Hrun | split; [ exact Htr | ] ].
    intros ->. eapply run_loop_overflow_tail. exact Hrun.
Qed.

Lemma overflow_run :
  train (run_config 2) 0 overflow_inputs
  = Returned (OverflowBreak, overflow_final)
      (prologue (run_config 2)
       ++ [ModelTrain true; ModelTrain true; StatsReport 2]
       ++ epilogue overflow_final).
Proof. vm_compute. reflexivity. Qed.

(** The overflow run: one step, then a step whose report flags the overflow;
    the third input is not read and [train] returns with the checkpoint of
    step 2 right after the report. *)
Lemma overflow_stops_and_final_checkpoint_witness :
  global_step overflow_final = update_stats 1
  /\ train (run_config 2) 0 ([step_in false 50] ++ step_in true 50 :: [step_in false 50])
     = Returned (OverflowBreak, overflow_final)
         (prologue (run_config 2)
          ++ ([ModelTrain true] ++ [ModelTrain true; StatsReport 2])
          ++ CheckpointSave 2 :: [] ++ close_run).
Proof.
  assert (Hpre : train_preconditions (run_config 2) = true) by reflexivity.
  assert (Hbs : Config.batch_size (run_config 2) <> 0) by (cbn; lia).
  destruct (overflow_stops_and_final_checkpoint
              (run_config 2) 0 [step_in false 50] (step_in true 50)
              [step_in false 50] overflow_inputs Hpre Hbs) as (Hov & _ & _).
  apply (Hov [ModelTrain true]
             (mk_state (Config.set_epoch_step 1 (run_config 2)) 1 0 0 2 0%float 0%float)).
  - reflexivity.
  - reflexivity.
Defined.

(** ** Sessions *)

Lemma filter_loop_events (f : event -> bool) (p : Z) (tr : trace) :
  (forall e, loop_event p e -> f e = false) ->
  Forall (loop_event p) tr -> filter f tr = [].
Proof.
  intros Hf Htr. induction Htr as [ | e tr He _ IH]; cbn.
  - reflexivity.
  - rewrite (Hf e He). exact IH.
Qed.

Lemma loop_event_not_open (m : mode) (p : Z) (e : event) :
  loop_event p e -> is_open m e = false.
Proof. destruct e; cbn; intros H; try reflexivity; contradiction. Qed.

Lemma loop_event_not_close (m : mode) (p : Z) (e : event) :
  loop_event p e -> is_close m e = false.
Proof. destruct e; cbn; intros H; try reflexivity; contradiction. Qed.

(** On every way [train] has of returning, the last three events of the run
    are the closing of the eval, infer and train sessions, and each session
    was opened once and is closed once; when [train] is left by one of its
    own checks, no session has been opened yet. *)
Lemma train_sessions_closed
  (c : Config.t) (loaded_step : Z) (ins : list iter_in) :
  (forall k st tr,
     train c loaded_step ins = Returned (k, st) tr ->
     (exists pre,
        tr = pre ++ [SessionClose EvalMode; SessionClose InferMode;
                     SessionClose TrainMode])
     /\ (forall m,
           length (filter (is_open m) tr) = 1%nat
           /\ length (filter (is_close m) tr) = 1%nat))
  /\ (forall e tr,
        train c loaded_step ins = Raised e tr ->
        forall m, filter (is_open m) tr = []).
Proof.
  split.
  - intros k st tr Htrain.
    destruct (train_returned_inv _ _ _ _ _ _ Htrain) as (body & Hrun & ->).
    pose proof (run_loop_events ins (init_state c loaded_step)) as Hev.
    rewrite Hrun in Hev. cbn [fst] in Hev.
    split.
    + exists (prologue c ++ body
              ++ CheckpointSave (global_step st)
                 :: (if Config.eval_best_model (config st) then [InferBestModel] else [])
                 ++ [SummaryWriterClose]).
      unfold epilogue, close_run.
      rewrite <- !app_assoc. cbn. rewrite <- !app_assoc. reflexivity.
    + intros m. rewrite !filter_app.
      rewrite (filter_loop_events (is_open m) _ body (loop_event_not_open m _) Hev).
      rewrite (filter_loop_events (is_close m) _ body (loop_event_not_close m _) Hev).
      unfold epilogue. destruct (Config.eval_best_model (config st));
        destruct m; split; reflexivity.
  - intros e tr. unfold train.
    destruct (negb (train_preconditions c)); [ intros [= _ <-]; reflexivity | ].
    destruct (Config.batch_size c =? 0); [ intros [= _ <-]; reflexivity | ].
    destruct (run_loop ins (init_state c loaded_step)) as [body [k st | st]];
      discriminate.
Qed.

(** C8, as the code has it.  The three sessions are closed at the end of the
    straight-line code of [train] only, not on every way out of it: there is
    no [finally] and no [with] around them, as there is around the sessions
    of [test].  When the assertions hold, the batch size is not
    zero, the loop is still running after the passes of [ins] and the next
    training step raises an exception [e] other than the end of the data,
    [train] is left with [e] right after that call: each of the three
    sessions has been opened once and none of them is closed. *)
Theorem sessions_left_open_when_step_raises
  (c : Config.t) (loaded_step : Z) (ins : list iter_in) (e : exn)
  (tr : trace) (st : loop_state) :
  train_preconditions c = true ->
  Config.batch_size c <> 0 ->
  run_loop ins (init_state c loaded_step) = (tr, Starved st) ->
  train_interrupted c loaded_step ins e
  = Raised e (prologue c ++ tr ++ [ModelTrainRaise])
  /\ (forall m,
        length (filter (is_open m) (prologue c ++ tr ++ [ModelTrainRaise])) = 1%nat
        /\ length (filter (is_close m) (prologue c ++ tr ++ [ModelTrainRaise])) = 0%nat).
Proof.
  intros Hpre Hbs Hrun. split.
  - unfold train_interrupted.
    rewrite Hpre. cbn [negb]. apply Z.eqb_neq in Hbs. rewrite Hbs, Hrun.
    reflexivity.
  - intros m.
    pose proof (run_loop_events ins (init_state c loaded_step)) as Hev.
    rewrite Hrun in Hev. cbn [fst] in Hev.
    rewrite !filter_app.
    rewrite (filter_loop_events (is_open m) _ tr (loop_event_not_open m _) Hev).
    rewrite (filter_loop_events (is_close m) _ tr (loop_event_not_close m _) Hev).
    destruct m; split; reflexivity.
Qed.

(** One step succeeds, the second raises: three sessions opened, none
    closed. *)
Lemma sessions_left_open_when_step_raises_witness :
  let tr := prologue (run_config 2) ++ [ModelTrain true] ++ [ModelTrainRaise] in
  train_interrupted (run_config 2) 0 [step_in false 50] OpError = Raised OpError tr
  /\ (forall m,
        length (filter (is_open m) tr) = 1%nat
        /\ length (filter (is_close m) tr) = 0%nat).
Proof.
  refine (sessions_left_open_when_step_raises (run_config 2) 0 [step_in false 50]
            OpError [ModelTrain true]
            (mk_state (Config.set_epoch_step 1 (run_config 2)) 1 0 0 2 0%float 0%float)
            _ _ _).
  - reflexivity.
  - cbn. lia.
  - reflexivity.
Defined.

(** Whenever the loop is left, by the epochs, by the patience or by the
    overflow [break], [train] returns, the last three events of its run are
    the closing of the eval, infer and train sessions, and each of the three
    sessions was opened exactly once and is closed exactly once; a step that
    would raise after the loop is left is never called, so the same holds of
    [train_interrupted]. *)
Theorem sessions_closed_when_loop_exits
  (c : Config.t) (loaded_step : Z) (ins : list iter_in)
  (body : trace) (k : exit_kind) (st : loop_state) :
  train_preconditions c = true ->
  Config.batch_size c <> 0 ->
  run_loop ins (init_state c loaded_step) = (body, Exited k st) ->
  exists pre,
    train c loaded_step ins
    = Returned (k, st)
        (pre ++ [SessionClose EvalMode; SessionClose InferMode; SessionClose TrainMode])
    /\ (forall e, train_interrupted c loaded_step ins e = train c loaded_step ins)
    /\ (forall m,
          length (filter (is_open m) pre) = 1%nat
          /\ length (filter (is_close m) pre) = 0%nat).
Proof.
  intros Hpre Hbs Hrun.
  pose proof (run_loop_events ins (init_state c loaded_step)) as Hev.
  rewrite Hrun in Hev. cbn [fst] in Hev.
  exists (prologue c ++ body
          ++ CheckpointSave (global_step st)
             :: (if Config.eval_best_model (config st) then [InferBestModel] else [])
             ++ [SummaryWriterClose]).
  split; [ | split ].
  - rewrite (train_returns_when_loop_exits _ _ _ _ _ _ Hpre Hbs Hrun).
    unfold close_run. rewrite <- !app_assoc. cbn. rewrite <- !app_assoc. reflexivity.
  - intros e. unfold train_interrupted, train. rewrite Hrun. reflexivity.
  - intros m. rewrite !filter_app.
    rewrite (filter_loop_events (is_open m) _ body (loop_event_not_open m _) Hev).
    rewrite (filter_loop_events (is_close m) _ body (loop_event_not_close m _) Hev).
    destruct (Config.eval_best_model (config st)); destruct m; split; reflexivity.
Qed.

(** The overflow run. *)
Lemma sessions_closed_when_loop_exits_witness :
  exists pre,
    train (run_config 2) 0 overflow_inputs
    = Returned (OverflowBreak, overflow_final)
        (pre ++ [SessionClose EvalMode; SessionClose InferMode; SessionClose TrainMode])
    /\ (forall e, train_interrupted (run_config 2) 0 overflow_inputs e
                  = train (run_config 2) 0 overflow_inputs)
    /\ (forall m,
          length (filter (is_open m) pre) = 1%nat
          /\ length (filter (is_close m) pre) = 0%nat).
Proof.
  refine (sessions_closed_when_loop_exits (run_config 2) 0 overflow_inputs
            [ModelTrain true; ModelTrain true; StatsReport 2]
            OverflowBreak overflow_final _ _ _).
  - reflexivity.
  - cbn. lia.
  - reflexivity.
Defined.

(** ** The patience field of the config *)

Lemma run_loop_patience_field (ins : list iter_in) :
  forall st,
    Config.patience (config (exit_state (snd (run_loop ins st))))
    = Config.patience (config st).
Proof.
  induction ins as [ | i rest IH]; intros st; cbn.
  - destruct (loop_cond st); reflexivity.
  - destruct (loop_cond st); [ | reflexivity ].
    destruct (loop_body_frame i st) as (_ & Hp & _).
    destruct (loop_body i st) as [[tr1 fl] st1]. cbn in Hp.
    destruct fl; [ | exact Hp ].
    specialize (IH st1). destruct (run_loop rest st1) as [tr2 r]. cbn in *.
    congruence.
Qed.

Lemma train_trace_shape (c : Config.t) (loaded_step : Z) (ins : list iter_in) :
  train_preconditions c = true ->
  Config.batch_size c <> 0 ->
  exists rest,
    outcome_trace (train c loaded_step ins)
    = prologue c ++ fst (run_loop ins (init_state c loaded_step)) ++ rest
    /\ (rest = [] \/ exists st, rest = epilogue st).
Proof.
  intros Hpre Hbs. unfold train. rewrite Hpre. cbn [negb].
  apply Z.eqb_neq in Hbs. rewrite Hbs.
  destruct (run_loop ins (init_state c loaded_step)) as [body [k st | st]]; cbn.
  - exists (epilogue st). split; [ reflexivity | right; exists st; reflexivity ].
  - exists []. rewrite app_nil_r. split; [ reflexivity | left; reflexivity ].
Qed.

Lemma train_trace_raised (c : Config.t) (loaded_step : Z) (ins : list iter_in) :
  train_preconditions c = false \/ Config.batch_size c = 0 ->
  outcome_trace (train c loaded_step ins) = []
  \/ outcome_trace (train c loaded_step ins) = create_models.
Proof.
  unfold train. intros [Hpre | Hbs].
  - rewrite Hpre. left. reflexivity.
  - destruct (negb (train_preconditions c)); [ left; reflexivity | ].
    rewrite Hbs. right. reflexivity.
Qed.

(** Closes a goal whose hypothesis [H] puts an event in an explicit list that
    holds no event of its kind. *)
Ltac not_in_list H :=
  cbn in H;
  repeat (destruct H as [H | H]; try discriminate H);
  contradiction.

Lemma In_epilogue_inv (st : loop_state) (e : event) :
  In e (epilogue st) ->
  CheckpointSave (global_step st) = e \/ InferBestModel = e \/ In e close_run.
Proof.
  unfold epilogue. destruct (Config.eval_best_model (config st)); cbn; tauto.
Qed.

(** C9.  [train] never assigns the [patience] field of the config: the
    countdown lives in the local [patience], set from [config.patience] before
    the loop.  So the config still carries the configured patience when the
    loop is left, every config saved during the run records the configured
    patience, and a run started from such a saved config starts its countdown
    from the configured patience again. *)
Theorem saved_config_keeps_patience
  (c : Config.t) (loaded_step : Z) (ins : list iter_in) (c' : Config.t) :
  In (ConfigSave c') (outcome_trace (train c loaded_step ins)) ->
  Config.patience (config (exit_state (snd (run_loop ins (init_state c loaded_step)))))
  = Config.patience c
  /\ Config.patience c' = Config.patience c
  /\ (forall resumed_step, patience (init_state c' resumed_step) = Config.patience c).
Proof.
  intros Hin.
  split; [ apply (run_loop_patience_field ins (init_state c loaded_step)) | ].
  assert (Hp : Config.patience c' = Config.patience c).
  { destruct (train_preconditions c) eqn:Hpre.
    - destruct (Z.eq_dec (Config.batch_size c) 0) as [Hbs | Hbs].
      + destruct (train_trace_raised c loaded_step ins (or_intror Hbs)) as [H | H];
          rewrite H in Hin; not_in_list Hin.
      + destruct (train_trace_shape c loaded_step ins Hpre Hbs) as (rest & Htr & Hrest).
        rewrite Htr in Hin.
        apply in_app_or in Hin. destruct Hin as [Hin | Hin].
        * cbn in Hin.
          repeat (destruct Hin as [Hin | Hin]; try discriminate Hin);
            [ | contradiction ].
          injection Hin as <-. reflexivity.
        * apply in_app_or in Hin. destruct Hin as [Hin | Hin].
          -- pose proof (run_loop_events ins (init_state c loaded_step)) as Hev.
             rewrite Forall_forall in Hev. exact (Hev _ Hin).
          -- destruct Hrest as [-> | [st ->]]; [ contradiction | ].
             apply In_epilogue_inv in Hin.
             destruct Hin as [Hin | [Hin | Hin]]; try discriminate Hin.
             not_in_list Hin.
    - destruct (train_trace_raised c loaded_step ins (or_introl Hpre)) as [H | H];
        rewrite H in Hin; not_in_list Hin. }
  split; [ exact Hp | ].
  intros resumed_step. cbn. exact Hp.
Qed.

Lemma degrading_run :
  train (run_config 1) 0 degrading_inputs
  = Returned (CondFalse, degraded_final)
      (prologue (run_config 1)
       ++ [ModelTrain true; ModelTrain true; StatsReport 2; AddSummary 2 100;
           CheckpointSave 2; SampleDecode; InternalEval;
           ConfigSave (Config.set_epoch_step 2
                         (Config.set_best_dev_ppl 50 (run_config 1)));
           ModelTrain true; ModelTrain true; StatsReport 4; AddSummary 4 100;
           CheckpointSave 4; SampleDecode; InternalEval;
           ConfigSave degraded_config]
       ++ epilogue degraded_final).
Proof. vm_compute. reflexivity. Qed.

Lemma saved_config_keeps_patience_witness :
  patience degraded_final = 0
  /\ Config.patience
       (config (exit_state (snd (run_loop degrading_inputs (init_state (run_config 1) 0)))))
     = 1
  /\ Config.patience degraded_config = 1
  /\ (forall resumed_step, patience (init_state degraded_config resumed_step) = 1).
Proof.
  split; [ reflexivity | ].
  apply (saved_config_keeps_patience (run_config 1) 0 degrading_inputs degraded_config).
  rewrite degrading_run. cbn.
  do 27 right. left. reflexivity.
Defined.

(** ** The skip count of the train iterator *)

(** C10.  Once the assertions have passed, [train] initialises the train
    iterator exactly once before the loop, with skip count
    [batch_size * epoch_step] taken from the config it was started with (so a
    run started from a saved config with [epoch_step > 0] skips the part of
    the epoch already done); every later initialisation, which is that of an
    epoch rollover, uses skip count 0. *)
Theorem initial_skip_count (c : Config.t) (loaded_step : Z) (ins : list iter_in) :
  train_preconditions c = true ->
  Config.batch_size c <> 0 ->
  exists rest,
    outcome_trace (train c loaded_step ins)
    = create_models
      ++ [ConfigSave c; SessionOpen TrainMode; SessionOpen EvalMode;
          SessionOpen InferMode; ModelLoad TrainMode; SummaryWriterOpen;
          IteratorInit (Config.batch_size c * Config.epoch_step c)]
      ++ rest
    /\ (forall skip_count, In (IteratorInit skip_count) rest -> skip_count = 0)
    /\ (forall i st, step_ok i = false ->
          In (IteratorInit 0) (fst (fst (loop_body i st)))).
Proof.
  intros Hpre Hbs.
  destruct (train_trace_shape c loaded_step ins Hpre Hbs) as (rest & Htr & Hrest).
  exists (fst (run_loop ins (init_state c loaded_step)) ++ rest).
  split; [ exact Htr | split ].
  - intros s Hin. apply in_app_or in Hin. destruct Hin as [Hin | Hin].
    + pose proof (run_loop_events ins (init_state c loaded_step)) as Hev.
      rewrite Forall_forall in Hev. exact (Hev _ Hin).
    + destruct Hrest as [-> | [st ->]]; [ contradiction | ].
      apply In_epilogue_inv in Hin.
      destruct Hin as [Hin | [Hin | Hin]]; try discriminate Hin.
      not_in_list Hin.
  - intros i st Hok. unfold loop_body. rewrite Hok. cbn.
    do 3 right. left. reflexivity.
Qed.

Lemma initial_skip_count_witness :
  exists rest,
    outcome_trace (train resumed_config 230 [step_in false 50; exhausted_in])
    = create_models
      ++ [ConfigSave resumed_config; SessionOpen TrainMode; SessionOpen EvalMode;
          SessionOpen InferMode; ModelLoad TrainMode; SummaryWriterOpen;
          IteratorInit (32 * 7)]
      ++ rest
    /\ (forall skip_count, In (IteratorInit skip_count) rest -> skip_count = 0)
    /\ (forall i st, step_ok i = false ->
          In (IteratorInit 0) (fst (fst (loop_body i st)))).
Proof.
  apply (initial_skip_count resumed_config 230 [step_in false 50; exhausted_in]).
  - reflexivity.
  - cbn. lia.
Defined.

Example resumed_run_trace :
  outcome_trace (train resumed_config 230 [step_in false 50; exhausted_in])
  = prologue resumed_config
    ++ [ModelTrain true; ModelTrain false; SampleDecode;
        ConfigSave (Config.set_epoch_step 0 (Config.set_epoch 2 resumed_config));
        IteratorInit 0].
Proof. vm_compute. reflexivity. Qed.

(** ** [train] returns *)

Lemma run_loop_exits (ins : list iter_in) :
  forall st,
    Config.num_train_epochs (config st) - Config.epoch (config st)
    <= Z.of_nat (exhausted_count ins) ->
    exists k st', snd (run_loop ins st) = Exited k st'.
Proof.
  unfold exhausted_count.
  induction ins as [ | i rest IH]; intros st Hcount; cbn in *.
  - destruct (loop_cond st) eqn:Hc; cbn; [ | eauto ].
    apply loop_cond_true_iff in Hc. unfold terminal in Hc. lia.
  - destruct (loop_cond st) eqn:Hc; cbn; [ | eauto ].
    destruct (loop_body_frame i st) as (_ & _ & He & Hn).
    destruct (loop_body i st) as [[tr1 fl] st1]. cbn in He, Hn.
    destruct fl; [ | cbn; eauto ].
    destruct (IH st1) as (k & st' & Hexit).
    + rewrite He, Hn. destruct (step_ok i); cbn [negb length] in *; lia.
    + destruct (run_loop rest st1) as [tr2 r]. cbn in *. eauto.
Qed.

(** The loop cannot run for ever on data that keeps ending: once the
    assertions hold and the batch size is not zero, [train] returns as soon
    as the inputs hold as many data-exhausted signals as there are epochs
    left. *)
Theorem train_returns (c : Config.t) (loaded_step : Z) (ins : list iter_in) :
  train_preconditions c = true ->
  Config.batch_size c <> 0 ->
  Config.num_train_epochs c - Config.epoch c <= Z.of_nat (exhausted_count ins) ->
  exists k st tr, train c loaded_step ins = Returned (k, st) tr.
Proof.
  intros Hpre Hbs Hcount. unfold train.
  rewrite Hpre. cbn [negb]. apply Z.eqb_neq in Hbs. rewrite Hbs.
  destruct (run_loop_exits ins (init_state c loaded_step) Hcount) as (k & st & Hexit).
  destruct (run_loop ins (init_state c loaded_step)) as [tr r]. cbn in Hexit. subst r.
  eauto.
Qed.

(** Three epochs of one step each. *)
Lemma train_returns_witness :
  exists k st tr,
    train (run_config 2) 0
      [step_in false 50; exhausted_in; step_in false 50; exhausted_in;
       step_in false 50; exhausted_in]
    = Returned (k, st) tr.
Proof.
  apply (train_returns (run_config 2) 0).
  - reflexivity.
  - cbn. lia.
  - cbn. lia.
Defined.

(** The three ways out of the loop, on runs of [train]: the overflow [break]
    and the used-up patience are the runs above, the last epoch ends here. *)
Example last_epoch_run :
  train (Config.set_epoch 2 (run_config 2)) 0 [step_in false 50; exhausted_in]
  = Returned
      (CondFalse,
       mk_state (Config.set_epoch_step 0 (Config.set_epoch 3 (run_config 2)))
                1 0 0 2 0%float 0%float)
      (prologue (Config.set_epoch 2 (run_config 2))
       ++ [ModelTrain true; ModelTrain false; SampleDecode;
           ConfigSave (Config.set_epoch_step 0 (Config.set_epoch 3 (run_config 2)));
           IteratorInit 0]
       ++ [CheckpointSave 1] ++ close_run).
Proof. vm_compute. reflexivity. Qed.

(** * Further properties of the code *)

(** ** More on the order of binary64 floats *)

Lemma SFcompare_finite_Lt (s1 s2 : bool) (m1 m2 : positive) (e1 e2 : Z) :
  SFcompare (S754_finite s1 m1 e1) (S754_finite s2 m2 e2) = Some Lt <->
  (s1 = true /\ s2 = false)
  \/ (s1 = false /\ s2 = false /\ (e1 < e2 \/ (e1 = e2 /\ (m1 < m2)%positive)))
  \/ (s1 = true /\ s2 = true /\ (e2 < e1 \/ (e1 = e2 /\ (m2 < m1)%positive))).
Proof.
  cbn [SFcompare].
  change (Pos.compare_cont Eq m1 m2) with (Pos.compare m1 m2).
  destruct s1, s2;
    destruct (Z.compare_spec e1 e2); destruct (Pos.compare_spec m1 m2);
    cbn [CompOpp]; split; intros Hc;
    try discriminate Hc;
    try (repeat match goal with
                | H : _ \/ _ |- _ => destruct H
                | H : _ /\ _ |- _ => destruct H
                end; subst; try discriminate; lia);
    try (left; split; reflexivity);
    try (right; left; repeat split; first [ left; lia | right; split; lia ]);
    try (right; right; repeat split; first [ left; lia | right; split; lia ]);
    try reflexivity.
Qed.

Lemma SFcompare_Lt_trans (x y z : spec_float) :
  SFcompare x y = Some Lt -> SFcompare y z = Some Lt -> SFcompare x z = Some Lt.
Proof.
  destruct x as [sx | sx | | sx mx ex], y as [sy | sy | | sy my ey],
           z as [sz | sz | | sz mz ez];
    try (cbn; intros; discriminate);
    try (destruct sx; cbn; intros; congruence);
    try (destruct sy; cbn; intros; congruence);
    try (destruct sz; cbn; intros; congruence);
    try (destruct sx, sy; cbn; intros; congruence);
    try (destruct sy, sz; cbn; intros; congruence);
    try (destruct sx, sz; cbn; intros; congruence);
    try (destruct sx, sy, sz; cbn; intros; congruence).
  rewrite !SFcompare_finite_Lt.
  intros [[-> ->] | [(-> & -> & H1) | (-> & -> & H1)]]
         [[? ?] | [(? & ? & H2) | (? & ? & H2)]]; subst; try discriminate;
    first [ left; split; reflexivity
          | right; left; repeat split; lia
          | right; right; repeat split; lia ].
Qed.

(** [<] on floats is transitive. *)
Lemma ltb_trans (x y z : float) :
  (x <? y)%float = true -> (y <? z)%float = true -> (x <? z)%float = true.
Proof.
  rewrite !ltb_spec. unfold SFltb.
  destruct (SFcompare (Prim2SF x) (Prim2SF y)) as [[ | | ] | ] eqn:Hxy;
    try discriminate.
  destruct (SFcompare (Prim2SF y) (Prim2SF z)) as [[ | | ] | ] eqn:Hyz;
    try discriminate.
  rewrite (SFcompare_Lt_trans _ _ _ Hxy Hyz). reflexivity.
Qed.

Lemma SFcompare_refl (x : spec_float) :
  x <> S754_nan -> SFcompare x x = Some Eq.
Proof.
  destruct x as [s | s | | s m e]; intros Hx; try (destruct s; reflexivity).
  - contradiction.
  - cbn [SFcompare]. rewrite Z.compare_refl.
    change (Pos.compare_cont Eq m m) with (Pos.compare m m).
    rewrite Pos.compare_refl. destruct s; reflexivity.
Qed.

Lemma is_nan_spec (x : float) :
  is_nan x = true <-> Prim2SF x = S754_nan.
Proof.
  unfold is_nan. rewrite eqb_spec. unfold SFeqb. split.
  - intros H. destruct (Prim2SF x) as [s | s | | s m e] eqn:Hx;
      try reflexivity;
      rewrite SFcompare_refl in H by discriminate; discriminate H.
  - intros ->. reflexivity.
Qed.

(** No comparison with a NaN holds, and a product with a NaN is a NaN. *)
Lemma ltb_nan (x y : float) :
  is_nan x = true \/ is_nan y = true -> (x <? y)%float = false.
Proof.
  rewrite !is_nan_spec, ltb_spec. unfold SFltb.
  intros [-> | ->]; [ reflexivity | ].
  destruct (Prim2SF x); reflexivity.
Qed.

Lemma mul_nan_r (x y : float) :
  is_nan y = true -> is_nan (x * y)%float = true.
Proof.
  rewrite !is_nan_spec, mul_spec. intros ->.
  unfold SF64mul, SFmul. destruct (Prim2SF x); reflexivity.
Qed.

(** ** The best dev perplexity *)

(** Splits a goal about [loop_body i st] along the paths through the body. *)
Ltac loop_body_paths i :=
  unfold loop_body, maybe_eval, stats_report, eval_cycle, epoch_rollover;
  destruct (step_ok i) eqn:?; [ | cbn ];
  [ destruct (stats_due _) eqn:?;
    [ destruct (stats_out i) as [[? ?] [ | ]] eqn:?; [ cbn | ] | ];
    try (destruct (eval_due _) eqn:?; cbn)
  | ].

Lemma not_worse_trans (x y z : float) :
  not_worse x y -> not_worse y z -> not_worse x z.
Proof.
  unfold not_worse. intros [-> | Hxy] [-> | Hyz]; auto.
  right. eapply ltb_trans; eassumption.
Qed.

Lemma compare_dev_ppl_not_worse (dev_ppl : float) (st : loop_state) :
  not_worse (Config.best_dev_ppl (config (compare_dev_ppl dev_ppl st)))
            (Config.best_dev_ppl (config st)).
Proof.
  unfold compare_dev_ppl, not_worse.
  destruct (dev_ppl <? _)%float eqn:Hlt; [ right; exact Hlt | ].
  destruct (_ <? dev_ppl)%float; left; reflexivity.
Qed.

Lemma loop_body_not_worse (i : iter_in) (st : loop_state) :
  not_worse (Config.best_dev_ppl (config (snd (loop_body i st))))
            (Config.best_dev_ppl (config st)).
Proof.
  loop_body_paths i;
    try (left; reflexivity);
    match goal with
    | |- context [compare_dev_ppl ?d ?s] => exact (compare_dev_ppl_not_worse d s)
    end.
Qed.

(** The stored best dev perplexity only ever improves: after any number of
    passes through the loop, finished or not, it is the one the loop started
    with or a strictly smaller one ([<] of floats being transitive). *)
Theorem best_dev_ppl_never_worse (ins : list iter_in) (st : loop_state) :
  let best := Config.best_dev_ppl (config (exit_state (snd (run_loop ins st)))) in
  best = Config.best_dev_ppl (config st)
  \/ (best <? Config.best_dev_ppl (config st))%float = true.
Proof.
  cbn zeta. revert st.
  induction ins as [ | i rest IH]; intros st; cbn.
  - destruct (loop_cond st); left; reflexivity.
  - destruct (loop_cond st); [ | left; reflexivity ].
    pose proof (loop_body_not_worse i st) as Hb.
    destruct (loop_body i st) as [[tr1 fl] st1]. cbn in Hb.
    destruct fl; [ | exact Hb ].
    specialize (IH st1). destruct (run_loop rest st1) as [tr2 r]. cbn in *.
    exact (not_worse_trans _ _ _ IH Hb).
Qed.

(** A dev perplexity that is a NaN, or a stored best that is a NaN, makes the
    evaluation cycle a no-op for early stopping: neither comparison holds, so
    the patience is not used up and the best perplexity is not replaced. *)
Theorem nan_perplexity_changes_nothing (dev_ppl : float) (st : loop_state) :
  is_nan dev_ppl = true \/ is_nan (Config.best_dev_ppl (config st)) = true ->
  let st' := snd (eval_cycle dev_ppl st) in
  patience st' = patience st /\ config st' = config st.
Proof.
  intros Hnan. unfold eval_cycle, compare_dev_ppl. cbn [snd config patience].
  rewrite (ltb_nan dev_ppl _ Hnan).
  rewrite ltb_nan; [ split; reflexivity | ].
  destruct Hnan as [Hd | Hb]; [ right; exact Hd | left ].
  apply mul_nan_r. exact Hb.
Qed.

(** Patience 1 and best 50: a NaN dev perplexity leaves both; and a best
    perplexity that is a NaN survives a dev perplexity of 10. *)
Lemma nan_perplexity_changes_nothing_witness :
  (let st' := snd (eval_cycle nan (example_state 50 1)) in
   patience st' = 1 /\ config st' = config (example_state 50 1))
  /\ (let st' := snd (eval_cycle 10 (example_state nan 1)) in
      patience st' = 1 /\ config st' = config (example_state nan 1)).
Proof.
  split.
  - apply (nan_perplexity_changes_nothing nan (example_state 50 1)).
    left. reflexivity.
  - apply (nan_perplexity_changes_nothing 10 (example_state nan 1)).
    right. reflexivity.
Defined.

(** ** The config fields the loop writes *)

Lemma same_settings_refl (c : Config.t) : same_settings c c.
Proof. destruct c. reflexivity. Qed.

Lemma same_settings_trans (c0 c1 c2 : Config.t) :
  same_settings c0 c1 -> same_settings c1 c2 -> same_settings c0 c2.
Proof.
  unfold same_settings. destruct c0, c1, c2. cbn.
  intros [= -> -> -> -> -> -> -> -> -> -> -> -> ->]
         [= -> -> -> -> -> -> -> -> -> -> -> -> ->].
  reflexivity.
Qed.

Lemma compare_dev_ppl_settings (dev_ppl : float) (st : loop_state) :
  same_settings (config st) (config (compare_dev_ppl dev_ppl st)).
Proof.
  unfold compare_dev_ppl, same_settings.
  destruct st as [c gs ls le p ppl spd]. cbn.
  destruct (dev_ppl <? _)%float; [ | destruct (_ <? dev_ppl)%float ];
    destruct c; reflexivity.
Qed.

Lemma loop_body_settings (i : iter_in) (st : loop_state) :
  same_settings (config st) (config (snd (loop_body i st))).
Proof.
  destruct st as [c gs ls le p ppl spd].
  loop_body_paths i;
    try (unfold same_settings; destruct c; reflexivity);
    match goal with
    | |- context [compare_dev_ppl ?d ?s] =>
        refine (same_settings_trans _ (config s) _ _ (compare_dev_ppl_settings d s));
        unfold same_settings; cbn; destruct c; reflexivity
    end.
Qed.

Lemma run_loop_settings (ins : list iter_in) :
  forall st, same_settings (config st) (config (exit_state (snd (run_loop ins st)))).
Proof.
  induction ins as [ | i rest IH]; intros st; cbn.
  - destruct (loop_cond st); apply same_settings_refl.
  - destruct (loop_cond st); [ | apply same_settings_refl ].
    pose proof (loop_body_settings i st) as Hb.
    destruct (loop_body i st) as [[tr1 fl] st1]. cbn in Hb.
    destruct fl; [ | exact Hb ].
    specialize (IH st1). destruct (run_loop rest st1) as [tr2 r]. cbn in *.
    exact (same_settings_trans _ _ _ Hb IH).
Qed.

Lemma same_settings_fields (c c' : Config.t) :
  same_settings c c' ->
  Config.num_train_epochs c' = Config.num_train_epochs c
  /\ Config.patience c' = Config.patience c
  /\ Config.steps_per_stats c' = Config.steps_per_stats c
  /\ Config.steps_per_eval c' = Config.steps_per_eval c
  /\ Config.eval_best_model c' = Config.eval_best_model c
  /\ Config.degrade_threshold c' = Config.degrade_threshold c
  /\ Config.batch_size c' = Config.batch_size c.
Proof.
  unfold same_settings. intros ->. destruct c. cbn. repeat split; reflexivity.
Qed.

(** The loop writes three fields of the config and no other: whatever the
    inputs, the config it is left with is the one it was entered with but for
    [epoch], [epoch_step] and [best_dev_ppl]. *)
Theorem loop_writes_three_fields (ins : list iter_in) (st : loop_state) :
  let c' := config (exit_state (snd (run_loop ins st))) in
  c' = Config.set_best_dev_ppl (Config.best_dev_ppl c')
         (Config.set_epoch_step (Config.epoch_step c')
            (Config.set_epoch (Config.epoch c') (config st))).
Proof. exact (run_loop_settings ins st). Qed.

(** ** Invariants of the loop *)

(** What every pass keeps, the loop keeps. *)
Lemma run_loop_invariant (P : loop_state -> Prop) :
  (forall i st, loop_cond st = true -> P st -> P (snd (loop_body i st))) ->
  forall ins st, P st -> P (exit_state (snd (run_loop ins st))).
Proof.
  intros Hbody. induction ins as [ | i rest IH]; intros st HP; cbn.
  - destruct (loop_cond st); exact HP.
  - destruct (loop_cond st) eqn:Hc; [ | exact HP ].
    pose proof (Hbody i st Hc HP) as HP1.
    destruct (loop_body i st) as [[tr1 fl] st1]. cbn in HP1.
    destruct fl; [ | exact HP1 ].
    specialize (IH st1 HP1). destruct (run_loop rest st1) as [tr2 r]. exact IH.
Qed.

(** What every pass that goes back to the loop head keeps, holds whenever the
    loop is left at its head or is still running. *)
Lemma run_loop_head_invariant (P : loop_state -> Prop) :
  (forall i st, loop_cond st = true -> P st ->
                snd (fst (loop_body i st)) = Next -> P (snd (loop_body i st))) ->
  forall ins st, P st ->
    match snd (run_loop ins st) with
    | Exited OverflowBreak _ => True
    | Exited CondFalse st' | Starved st' => P st'
    end.
Proof.
  intros Hbody. induction ins as [ | i rest IH]; intros st HP; cbn.
  - destruct (loop_cond st); exact HP.
  - destruct (loop_cond st) eqn:Hc; [ | exact HP ].
    pose proof (Hbody i st Hc HP) as HP1.
    destruct (loop_body i st) as [[tr1 fl] st1]. cbn in HP1.
    destruct fl; [ | exact I ].
    specialize (IH st1 (HP1 eq_refl)). destruct (run_loop rest st1) as [tr2 r].
    exact IH.
Qed.

Lemma compare_dev_ppl_patience_le (dev_ppl : float) (st : loop_state) :
  patience st <= Config.patience (config st) ->
  patience st - 1 <= patience (compare_dev_ppl dev_ppl st)
  /\ patience (compare_dev_ppl dev_ppl st)
     <= Config.patience (config (compare_dev_ppl dev_ppl st)).
Proof.
  unfold compare_dev_ppl.
  destruct (dev_ppl <? _)%float; [ | destruct (_ <? dev_ppl)%float ]; cbn; lia.
Qed.

Lemma loop_body_patience_le (i : iter_in) (st : loop_state) :
  patience st <= Config.patience (config st) ->
  patience st
  - Z.of_nat (count_events is_internal_eval (fst (fst (loop_body i st))))
  <= patience (snd (loop_body i st))
  /\ patience (snd (loop_body i st)) <= Config.patience (config (snd (loop_body i st))).
Proof.
  intros Hle.
  loop_body_paths i; try lia;
    match goal with
    | |- context [compare_dev_ppl ?d ?s] =>
        pose proof (compare_dev_ppl_patience_le d s) as H; cbn in H;
        specialize (H Hle); unfold count_events; cbn; lia
    end.
Qed.

Lemma loop_body_patience_range (i : iter_in) (st : loop_state) :
  loop_cond st = true ->
  0 <= patience st <= Config.patience (config st) ->
  0 <= patience (snd (loop_body i st)) <= Config.patience (config (snd (loop_body i st))).
Proof.
  intros Hc [H0 Hle].
  destruct (loop_body_patience_le i st Hle) as [Hlow Hup].
  split; [ | exact Hup ].
  apply andb_prop in Hc. destruct Hc as [_ Hp]. apply Z.ltb_lt in Hp.
  assert (Hcount : (count_events is_internal_eval (fst (fst (loop_body i st))) <= 1)%nat).
  { clear. loop_body_paths i; unfold count_events; cbn; lia. }
  lia.
Qed.

Lemma loop_exit_sound_head (ins : list iter_in) (st st' : loop_state) (tr : trace) :
  run_loop ins st = (tr, Exited CondFalse st') -> terminal st'.
Proof.
  intros Hrun.
  destruct (run_loop_exit_sound ins _ _ _ _ Hrun) as [[_ Ht] | [Hk _]];
    [ exact Ht | discriminate Hk ].
Qed.

(** With a configured patience that is not negative, the countdown stays
    between 0 and the configured patience; so when [train] leaves the loop at
    its head with epochs still to go, the countdown is exactly 0. *)
Theorem patience_stays_in_range
  (c : Config.t) (loaded_step : Z) (ins : list iter_in)
  (k : exit_kind) (st : loop_state) (tr : trace) :
  0 <= Config.patience c ->
  train c loaded_step ins = Returned (k, st) tr ->
  0 <= patience st <= Config.patience c
  /\ (k = CondFalse ->
      Config.epoch (config st) < Config.num_train_epochs c ->
      patience st = 0).
Proof.
  intros Hp Htrain.
  destruct (train_returned_inv _ _ _ _ _ _ Htrain) as (body & Hrun & _).
  pose proof (run_loop_invariant
                (fun s => 0 <= patience s <= Config.patience (config s))
                loop_body_patience_range ins (init_state c loaded_step)) as Hinv.
  pose proof (run_loop_settings ins (init_state c loaded_step)) as Hset.
  rewrite Hrun in Hinv, Hset. cbn in Hinv, Hset.
  apply same_settings_fields in Hset. destruct Hset as (Hn & Hpf & _).
  rewrite Hpf in Hinv. specialize (Hinv (conj Hp (Z.le_refl _))).
  split; [ exact Hinv | ].
  intros -> Hepoch.
  destruct (loop_exit_sound_head ins _ _ _ Hrun) as [He | Hpat]; lia.
Qed.

(** The run that degrades twice with patience 1 stops in epoch 0 of 3 with
    its countdown at 0. *)
Lemma patience_stays_in_range_witness :
  0 <= patience degraded_final <= 1
  /\ (CondFalse = CondFalse ->
      Config.epoch (config degraded_final) < 3 ->
      patience degraded_final = 0).
Proof.
  refine (patience_stays_in_range (run_config 1) 0 degrading_inputs CondFalse
            degraded_final _ _ degrading_run).
  cbn. lia.
Defined.

Lemma loop_body_epoch_range (e0 : Z) (i : iter_in) (st : loop_state) :
  loop_cond st = true ->
  e0 <= Config.epoch (config st) <= Config.num_train_epochs (config st) ->
  e0 <= Config.epoch (config (snd (loop_body i st)))
     <= Config.num_train_epochs (config (snd (loop_body i st))).
Proof.
  intros Hc Hrange.
  apply andb_prop in Hc. destruct Hc as [He _]. apply Z.ltb_lt in He.
  destruct (loop_body_frame i st) as (_ & _ & Hepoch & Hnum).
  rewrite Hepoch, Hnum. destruct (step_ok i); lia.
Qed.

(** When it starts at or below the number of epochs, [epoch] never goes down
    and never passes that number; so when [train] leaves the loop at its head
    with patience to spare, [epoch] is exactly [num_train_epochs]. *)
Theorem epoch_stays_in_range
  (c : Config.t) (loaded_step : Z) (ins : list iter_in)
  (k : exit_kind) (st : loop_state) (tr : trace) :
  Config.epoch c <= Config.num_train_epochs c ->
  train c loaded_step ins = Returned (k, st) tr ->
  Config.epoch c <= Config.epoch (config st) <= Config.num_train_epochs c
  /\ (k = CondFalse -> 0 < patience st ->
      Config.epoch (config st) = Config.num_train_epochs c).
Proof.
  intros He Htrain.
  destruct (train_returned_inv _ _ _ _ _ _ Htrain) as (body & Hrun & _).
  pose proof (run_loop_invariant
                (fun s => Config.epoch c <= Config.epoch (config s)
                          <= Config.num_train_epochs (config s))
                (loop_body_epoch_range (Config.epoch c))
                ins (init_state c loaded_step)) as Hinv.
  pose proof (run_loop_settings ins (init_state c loaded_step)) as Hset.
  rewrite Hrun in Hinv, Hset. cbn in Hinv, Hset.
  apply same_settings_fields in Hset. destruct Hset as (Hn & _).
  rewrite Hn in Hinv. specialize (Hinv (conj (Z.le_refl _) He)).
  split; [ exact Hinv | ].
  intros -> Hpat.
  destruct (loop_exit_sound_head ins _ _ _ Hrun) as [Hdone | Hp]; lia.
Qed.

(** The run that starts in epoch 2 of 3 ends in epoch 3 with patience 2. *)
Lemma epoch_stays_in_range_witness :
  let st := mk_state (Config.set_epoch_step 0 (Config.set_epoch 3 (run_config 2)))
                     1 0 0 2 0%float 0%float in
  2 <= Config.epoch (config st) <= 3
  /\ (CondFalse = CondFalse -> 0 < patience st -> Config.epoch (config st) = 3).
Proof.
  refine (epoch_stays_in_range (Config.set_epoch 2 (run_config 2)) 0
            [step_in false 50; exhausted_in] CondFalse _ _ _ last_epoch_run).
  cbn. lia.
Defined.

(** ** Evaluation cycles and early stopping *)

Lemma count_events_app (f : event -> bool) (tr1 tr2 : trace) :
  count_events f (tr1 ++ tr2) = (count_events f tr1 + count_events f tr2)%nat.
Proof. unfold count_events. rewrite filter_app, length_app. reflexivity. Qed.

Lemma count_loop_events_0 (f : event -> bool) (p : Z) (tr : trace) :
  (forall e, loop_event p e -> f e = false) ->
  Forall (loop_event p) tr -> count_events f tr = 0%nat.
Proof.
  intros Hf Htr. unfold count_events.
  rewrite (filter_loop_events f p tr Hf Htr). reflexivity.
Qed.

Lemma run_loop_patience_le (ins : list iter_in) :
  forall st,
    patience st <= Config.patience (config st) ->
    patience st - Z.of_nat (count_events is_internal_eval (fst (run_loop ins st)))
    <= patience (exit_state (snd (run_loop ins st))).
Proof.
  induction ins as [ | i rest IH]; intros st Hle; cbn.
  - destruct (loop_cond st); cbn; lia.
  - destruct (loop_cond st); [ | cbn; lia ].
    destruct (loop_body_patience_le i st Hle) as [Hlow Hup].
    destruct (loop_body i st) as [[tr1 fl] st1]. cbn [fst snd] in Hlow, Hup.
    destruct fl; [ | cbn [fst snd exit_state]; lia ].
    specialize (IH st1 Hup). destruct (run_loop rest st1) as [tr2 r].
    cbn [fst snd exit_state] in *.
    rewrite count_events_app. lia.
Qed.

(** Each evaluation cycle costs at most one unit of patience: a returning run
    of [train] holds at least as many dev evaluations as its countdown fell
    below the configured patience, so it cannot stop for lack of patience
    before [config.patience] evaluation cycles were run. *)
Theorem early_stop_needs_evaluations
  (c : Config.t) (loaded_step : Z) (ins : list iter_in)
  (k : exit_kind) (st : loop_state) (tr : trace) :
  train c loaded_step ins = Returned (k, st) tr ->
  Config.patience c - patience st <= Z.of_nat (count_events is_internal_eval tr)
  /\ (patience st <= 0 ->
      Config.patience c <= Z.of_nat (count_events is_internal_eval tr)).
Proof.
  intros Htrain.
  destruct (train_returned_inv _ _ _ _ _ _ Htrain) as (body & Hrun & ->).
  pose proof (run_loop_patience_le ins (init_state c loaded_step) (Z.le_refl _)) as Hle.
  rewrite Hrun in Hle. cbn [fst snd exit_state init_state patience] in Hle.
  rewrite !count_events_app.
  assert (Hpro : count_events is_internal_eval (prologue c) = 0%nat) by reflexivity.
  assert (Hepi : count_events is_internal_eval (epilogue st) = 0%nat).
  { unfold epilogue. destruct (Config.eval_best_model (config st)); reflexivity. }
  rewrite Hpro, Hepi. lia.
Qed.

(** The run with patience 1 that stops at countdown 0 holds two evaluations. *)
Lemma early_stop_needs_evaluations_witness :
  1 - 0 <= Z.of_nat 2 /\ (0 <= 0 -> 1 <= Z.of_nat 2).
Proof.
  exact (early_stop_needs_evaluations (run_config 1) 0 degrading_inputs CondFalse
           degraded_final _ degrading_run).
Defined.

(** ** The counters of the config *)

Lemma steps_in_epoch_app (n : Z) (tr1 tr2 : trace) :
  steps_in_epoch n (tr1 ++ tr2) = steps_in_epoch (steps_in_epoch n tr1) tr2.
Proof. unfold steps_in_epoch. apply fold_left_app. Qed.

Lemma loop_body_counters (i : iter_in) (st : loop_state) :
  Config.epoch (config (snd (loop_body i st)))
  = Config.epoch (config st)
    + Z.of_nat (count_events is_rollover (fst (fst (loop_body i st))))
  /\ Config.epoch_step (config (snd (loop_body i st)))
     = steps_in_epoch (Config.epoch_step (config st)) (fst (fst (loop_body i st))).
Proof.
  destruct st as [c gs ls le p ppl spd].
  loop_body_paths i;
    try (destruct c; cbn; split; first [ reflexivity | lia ]);
    match goal with
    | |- context [compare_dev_ppl ?d ?s] =>
        destruct (compare_dev_ppl_frame d s) as (_ & _ & _ & _ & He & Hs & _);
        rewrite He, Hs; destruct c; cbn; split; first [ reflexivity | lia ]
    end.
Qed.

(** The two counters of the config follow the training steps: when the loop is
    left or the inputs run out, [epoch] has grown by the number of steps that
    found the data exhausted, and [epoch_step] is the number of steps that
    succeeded since the last of them (added to its initial value if there was
    none). *)
Theorem counters_follow_steps (ins : list iter_in) (st : loop_state) :
  let r := run_loop ins st in
  Config.epoch (config (exit_state (snd r)))
  = Config.epoch (config st) + Z.of_nat (count_events is_rollover (fst r))
  /\ Config.epoch_step (config (exit_state (snd r)))
     = steps_in_epoch (Config.epoch_step (config st)) (fst r).
Proof.
  cbn zeta. revert st.
  induction ins as [ | i rest IH]; intros st; cbn [run_loop].
  - destruct (loop_cond st); cbn; split; first [ reflexivity | lia ].
  - destruct (loop_cond st); [ | cbn; split; first [ reflexivity | lia ] ].
    destruct (loop_body_counters i st) as [He Hs].
    destruct (loop_body i st) as [[tr1 fl] st1]. cbn [fst snd] in He, Hs.
    destruct fl; [ | cbn [fst snd exit_state]; split; assumption ].
    specialize (IH st1). destruct (run_loop rest st1) as [tr2 r].
    cbn [fst snd exit_state] in *. destruct IH as [IHe IHs].
    rewrite count_events_app, steps_in_epoch_app, IHe, IHs, He, Hs.
    split; [ lia | reflexivity ].
Qed.

(** Two steps, the end of the data, one more step: one epoch on, one step
    into it. *)
Example counters_after_rollover :
  let r := run_loop [step_in false 50; step_in false 50; exhausted_in; step_in false 50]
                    (init_state (run_config 2) 0) in
  Config.epoch (config (exit_state (snd r))) = 1
  /\ Config.epoch_step (config (exit_state (snd r))) = 1
  /\ count_events is_rollover (fst r) = 1%nat.
Proof. vm_compute. repeat split. Qed.

(** ** The cadence of reports and evaluations *)

Lemma loop_body_stats_cadence (i : iter_in) (st : loop_state) :
  0 < Config.steps_per_stats (config st)
  /\ global_step st - last_stats_step st < Config.steps_per_stats (config st) ->
  let st' := snd (loop_body i st) in
  0 < Config.steps_per_stats (config st')
  /\ global_step st' - last_stats_step st' < Config.steps_per_stats (config st').
Proof.
  intros [Hpos Hlt]. cbn zeta.
  destruct (same_settings_fields _ _ (loop_body_settings i st)) as (_ & _ & Hs & _).
  rewrite Hs. clear Hs. split; [ exact Hpos | ]. revert Hpos Hlt.
  destruct st as [c gs ls le p ppl spd].
  loop_body_paths i; intros Hpos Hlt;
    unfold stats_due, eval_due in *; cbn in *;
    repeat match goal with
           | H : (_ <=? _) = false |- _ => apply Z.leb_gt in H
           end;
    try (destruct c; cbn in *; lia);
    match goal with
    | |- context [compare_dev_ppl ?d ?s] =>
        destruct (compare_dev_ppl_frame d s) as (Hg & Hl & _);
        rewrite Hg, Hl; destruct c; cbn in *; lia
    end.
Qed.

Lemma loop_body_eval_cadence (i : iter_in) (st : loop_state) :
  0 < Config.steps_per_eval (config st)
  /\ global_step st - last_eval_step st < Config.steps_per_eval (config st) ->
  snd (fst (loop_body i st)) = Next ->
  let st' := snd (loop_body i st) in
  0 < Config.steps_per_eval (config st')
  /\ global_step st' - last_eval_step st' < Config.steps_per_eval (config st').
Proof.
  intros [Hpos Hlt] Hnext. cbn zeta.
  destruct (same_settings_fields _ _ (loop_body_settings i st)) as (_ & _ & _ & Hs & _).
  rewrite Hs. clear Hs. split; [ exact Hpos | ]. revert Hnext Hpos Hlt.
  destruct st as [c gs ls le p ppl spd].
  loop_body_paths i; intros Hnext Hpos Hlt; try discriminate Hnext;
    unfold stats_due, eval_due in *; cbn in *;
    repeat match goal with
           | H : (_ <=? _) = false |- _ => apply Z.leb_gt in H
           end;
    try (destruct c; cbn in *; lia);
    match goal with
    | |- context [compare_dev_ppl ?d ?s] =>
        destruct (compare_dev_ppl_frame d s) as (Hg & _ & Hl & _);
        rewrite Hg, Hl; destruct c; cbn in *; lia
    end.
Qed.

(** Once the intervals are positive, a report is never overdue when [train]
    returns, and an evaluation is never overdue when the loop was left at its
    head: fewer than [steps_per_stats] steps were counted since the last
    report, fewer than [steps_per_eval] since the last evaluation (the
    overflow [break] skips the evaluation of its pass). *)
Theorem reports_and_evaluations_never_overdue
  (c : Config.t) (loaded_step : Z) (ins : list iter_in)
  (k : exit_kind) (st : loop_state) (tr : trace) :
  train c loaded_step ins = Returned (k, st) tr ->
  (0 < Config.steps_per_stats c ->
   global_step st - last_stats_step st < Config.steps_per_stats c)
  /\ (0 < Config.steps_per_eval c -> k = CondFalse ->
      global_step st - last_eval_step st < Config.steps_per_eval c).
Proof.
  intros Htrain.
  destruct (train_returned_inv _ _ _ _ _ _ Htrain) as (body & Hrun & _).
  pose proof (run_loop_settings ins (init_state c loaded_step)) as Hset.
  rewrite Hrun in Hset. cbn in Hset.
  apply same_settings_fields in Hset. destruct Hset as (_ & _ & Hs & He & _).
  split.
  - intros Hpos.
    pose proof (run_loop_invariant _
                  (fun i s _ H => loop_body_stats_cadence i s H)
                  ins (init_state c loaded_step)) as Hinv.
    rewrite Hrun in Hinv. cbn in Hinv. rewrite Hs in Hinv.
    apply Hinv. lia.
  - intros Hpos ->.
    pose proof (run_loop_head_invariant _
                  (fun i s _ H Hn => loop_body_eval_cadence i s H Hn)
                  ins (init_state c loaded_step)) as Hinv.
    rewrite Hrun in Hinv. cbn in Hinv. rewrite He in Hinv.
    apply Hinv. lia.
Qed.

(** The degrading run, with both intervals 2, stops right after an
    evaluation. *)
Lemma reports_and_evaluations_never_overdue_witness :
  (0 < 2 -> global_step degraded_final - last_stats_step degraded_final < 2)
  /\ (0 < 2 -> CondFalse = CondFalse ->
      global_step degraded_final - last_eval_step degraded_final < 2).
Proof.
  exact (reports_and_evaluations_never_overdue (run_config 1) 0 degrading_inputs
           CondFalse degraded_final _ degrading_run).
Defined.

(** ** What is saved and what is live *)

Lemma last_config_save_app (saved : option Config.t) (tr1 tr2 : trace) :
  last_config_save saved (tr1 ++ tr2)
  = last_config_save (last_config_save saved tr1) tr2.
Proof. unfold last_config_save. apply fold_left_app. Qed.

Lemma loop_body_last_save (i : iter_in) (st : loop_state) (saved : Config.t) :
  same_but_epoch_step saved (config st) ->
  exists saved',
    last_config_save (Some saved) (fst (fst (loop_body i st))) = Some saved'
    /\ same_but_epoch_step saved' (config (snd (loop_body i st))).
Proof.
  unfold same_but_epoch_step. intros Hsame.
  destruct st as [c gs ls le p ppl spd]. cbn in Hsame.
  loop_body_paths i;
    eexists; (split; [ reflexivity | ]);
    try (destruct c, saved; cbn in *; injection Hsame; intros; subst; reflexivity);
    match goal with
    | |- ?x = _ => destruct x; reflexivity
    end.
Qed.

Lemma run_loop_last_save (ins : list iter_in) :
  forall st saved,
    same_but_epoch_step saved (config st) ->
    exists saved',
      last_config_save (Some saved) (fst (run_loop ins st)) = Some saved'
      /\ same_but_epoch_step saved' (config (exit_state (snd (run_loop ins st)))).
Proof.
  induction ins as [ | i rest IH]; intros st saved Hsame; cbn [run_loop].
  - destruct (loop_cond st); exists saved; split; first [ reflexivity | exact Hsame ].
  - destruct (loop_cond st);
      [ | exists saved; split; first [ reflexivity | exact Hsame ] ].
    destruct (loop_body_last_save i st saved Hsame) as (saved1 & Hlast & Hsame1).
    destruct (loop_body i st) as [[tr1 fl] st1]. cbn [fst snd] in Hlast, Hsame1.
    destruct fl; [ | exists saved1; split; assumption ].
    destruct (IH st1 saved1 Hsame1) as (saved2 & Hlast2 & Hsame2).
    destruct (run_loop rest st1) as [tr2 r]. cbn [fst snd] in *.
    exists saved2. split; [ | exact Hsame2 ].
    rewrite last_config_save_app, Hlast. exact Hlast2.
Qed.

(** At every moment after the assertions the config last saved is the live
    config but for [epoch_step]: whether [train] has returned or is still in
    its loop, the saved [epoch], [best_dev_ppl] and all other fields are the
    current ones, and only the steps taken since the last save are missing. *)
Theorem saved_config_lags_by_epoch_step
  (c : Config.t) (loaded_step : Z) (ins : list iter_in) :
  train_preconditions c = true ->
  Config.batch_size c <> 0 ->
  let live := config (exit_state (snd (run_loop ins (init_state c loaded_step)))) in
  exists saved,
    last_config_save None (outcome_trace (train c loaded_step ins)) = Some saved
    /\ live = Config.set_epoch_step (Config.epoch_step live) saved.
Proof.
  intros Hpre Hbs. cbn zeta.
  destruct (train_trace_shape c loaded_step ins Hpre Hbs) as (rest & Htr & Hrest).
  assert (Hinit : same_but_epoch_step c (config (init_state c loaded_step))).
  { unfold same_but_epoch_step. destruct c. reflexivity. }
  destruct (run_loop_last_save ins _ _ Hinit) as (saved & Hlast & Hsame).
  exists saved. split; [ | exact Hsame ].
  rewrite Htr, !last_config_save_app.
  assert (Hpro : last_config_save None (prologue c) = Some c) by reflexivity.
  rewrite Hpro, Hlast.
  destruct Hrest as [-> | [st ->]]; [ reflexivity | ].
  unfold epilogue. destruct (Config.eval_best_model (config st)); reflexivity.
Qed.

(** In the degrading run the last save is the one of the last evaluation. *)
Lemma saved_config_lags_by_epoch_step_witness :
  exists saved,
    last_config_save None (outcome_trace (train (run_config 1) 0 degrading_inputs))
    = Some saved
    /\ config (exit_state (snd (run_loop degrading_inputs (init_state (run_config 1) 0))))
       = Config.set_epoch_step 4 saved.
Proof.
  apply (saved_config_lags_by_epoch_step (run_config 1) 0 degrading_inputs).
  - reflexivity.
  - cbn. lia.
Defined.

(** ** The final evaluation of the best model *)

Lemma loop_event_not_infer_best (p : Z) (e : event) :
  loop_event p e -> is_infer_best_model e = false.
Proof. destruct e; cbn; intros H; try reflexivity; contradiction. Qed.

(** A returning run of [train] evaluates the best model exactly once if
    [eval_best_model] was set in the config it started with and never
    otherwise, whichever way the loop was left, the overflow [break]
    included. *)
Theorem best_model_evaluated_once
  (c : Config.t) (loaded_step : Z) (ins : list iter_in)
  (k : exit_kind) (st : loop_state) (tr : trace) :
  train c loaded_step ins = Returned (k, st) tr ->
  count_events is_infer_best_model tr
  = (if Config.eval_best_model c then 1 else 0)%nat.
Proof.
  intros Htrain.
  destruct (train_returned_inv _ _ _ _ _ _ Htrain) as (body & Hrun & ->).
  pose proof (run_loop_events ins (init_state c loaded_step)) as Hev.
  pose proof (run_loop_settings ins (init_state c loaded_step)) as Hset.
  rewrite Hrun in Hev, Hset. cbn [fst snd exit_state] in Hev, Hset.
  apply same_settings_fields in Hset. destruct Hset as (_ & _ & _ & _ & Hflag & _).
  rewrite !count_events_app.
  rewrite (count_loop_events_0 _ _ body (loop_event_not_infer_best _) Hev).
  unfold epilogue. rewrite Hflag. cbn [init_state config].
  destruct (Config.eval_best_model c); reflexivity.
Qed.

(** The overflow run, with the flag off, holds no such evaluation. *)
Lemma best_model_evaluated_once_witness :
  count_events is_infer_best_model
    (prologue (run_config 2)
     ++ [ModelTrain true; ModelTrain true; StatsReport 2]
     ++ epilogue overflow_final)
  = 0%nat.
Proof.
  exact (best_model_evaluated_once (run_config 2) 0 overflow_inputs
           OverflowBreak overflow_final _ overflow_run).
Defined.

(** ** The checks of [train] *)

(** [train] raises for two reasons only.  It raises the assertion error, with
    nothing done, exactly when there are fewer than two turns or, with
    pretraining on, fewer than two pretraining turns or more of them than
    turns.  It raises the division error, with the three models built but no
    config saved and no session opened, exactly when the assertions hold and
    the batch size is zero. *)
Theorem train_raises_iff (c : Config.t) (loaded_step : Z) (ins : list iter_in) :
  let bad_turns :=
    Config.num_turns c < 2
    \/ (Config.pretrain_enabled c = true
        /\ (Config.num_pretrain_turns c < 2
            \/ Config.num_turns c < Config.num_pretrain_turns c)) in
  (train c loaded_step ins = Raised AssertionError [] <-> bad_turns)
  /\ (train c loaded_step ins = Raised ZeroDivisionError create_models <->
      ~ bad_turns /\ Config.batch_size c = 0)
  /\ (forall e tr,
        train c loaded_step ins = Raised e tr ->
        (e = AssertionError /\ tr = []) \/ (e = ZeroDivisionError /\ tr = create_models)).
Proof.
  cbn zeta.
  assert (Hbad : train_preconditions c = false <->
                 (Config.num_turns c < 2
                  \/ (Config.pretrain_enabled c = true
                      /\ (Config.num_pretrain_turns c < 2
                          \/ Config.num_turns c < Config.num_pretrain_turns c)))).
  { unfold train_preconditions.
    destruct (Z.leb_spec 2 (Config.num_turns c));
      destruct (Config.pretrain_enabled c);
      destruct (Z.leb_spec 2 (Config.num_pretrain_turns c));
      destruct (Z.leb_spec (Config.num_pretrain_turns c) (Config.num_turns c));
      cbn [andb]; split; intros Hx; try discriminate Hx; try reflexivity;
      try (exfalso; intuition (discriminate || lia));
      try (left; lia); try (right; split; [ reflexivity | lia ]). }
  unfold train.
  destruct (train_preconditions c) eqn:Hpre; cbn [negb].
  - assert (Hok : ~ (Config.num_turns c < 2
                     \/ (Config.pretrain_enabled c = true
                         /\ (Config.num_pretrain_turns c < 2
                             \/ Config.num_turns c < Config.num_pretrain_turns c)))).
    { intros Hx. apply Hbad in Hx. discriminate Hx. }
    destruct (Z.eqb_spec (Config.batch_size c) 0) as [Hbs | Hbs].
    + split; [ split; [ discriminate | contradiction ] | split ].
      * split; [ intros _; split; assumption | reflexivity ].
      * intros e tr [= <- <-]. right. split; reflexivity.
    + destruct (run_loop ins (init_state c loaded_step)) as [body [k st | st]];
        (split; [ split; [ discriminate | contradiction ] | split ];
         [ split; [ discriminate | intros [_ Hz]; contradiction ] | discriminate ]).
  - assert (Hx := proj1 Hbad eq_refl).
    split; [ split; [ intros _; exact Hx | reflexivity ] | split ].
    + split; [ discriminate | intros [Hn _]; contradiction ].
    + intros e tr [= <- <-]. left. split; reflexivity.
Qed.

(** One-turn dialogues fail the assertion; a batch size of zero fails the
    division once the models are built. *)
Lemma train_raises_iff_witness :
  train one_turn_config 0 overflow_inputs = Raised AssertionError []
  /\ train (Config.mk 2 false 0 0 2 2 3 1000 0 0 3 infinity 1 false 1 0) 0 overflow_inputs
     = Raised ZeroDivisionError create_models.
Proof.
  split.
  - apply (train_raises_iff one_turn_config 0 overflow_inputs).
    left. cbn. lia.
  - apply (train_raises_iff (Config.mk 2 false 0 0 2 2 3 1000 0 0 3 infinity 1 false 1 0)
             0 overflow_inputs).
    split; [ cbn; intuition (discriminate || lia) | reflexivity ].
Defined.

(** ** [_sample_decode]: when it fails and what it picks *)

(** [_sample_decode] fails exactly on a dataset of fewer than two examples,
    the empty one included, and then with numpy's [ValueError]; the index it
    draws is always one of the dataset, so the lookup never fails, and what it
    decodes is the example at that index. *)
Theorem sample_decode_raises_iff (A : Type) (eval_data : list A) (draw : Z) :
  ((length eval_data <= 1)%nat <->
   _sample_decode eval_data draw = Raised ValueError [])
  /\ (forall e tr, _sample_decode eval_data draw = Raised e tr -> e = ValueError)
  /\ (forall tr, _sample_decode eval_data draw <> Pending tr)
  /\ (forall id x tr,
        _sample_decode eval_data draw = Returned (id, x) tr ->
        nth_error eval_data (Z.to_nat id) = Some x /\ tr = [ModelDecode id]).
Proof.
  unfold _sample_decode.
  destruct (np_random_randint 0 (Z.of_nat (length eval_data) - 1) draw)
    as [id | ] eqn:Hdraw.
  - pose proof (np_random_randint_range _ _ _ _ Hdraw) as Hrange.
    destruct (nth_error eval_data (Z.to_nat id)) as [x | ] eqn:Hnth.
    + split; [ split; [ lia | discriminate ] | ].
      split; [ discriminate | ].
      split; [ discriminate | ].
      intros id' x' tr' [= <- <- <-]. split; [ exact Hnth | reflexivity ].
    + apply nth_error_None in Hnth. lia.
  - unfold np_random_randint in Hdraw.
    destruct (Z.ltb_spec 0 (Z.of_nat (length eval_data) - 1)); [ discriminate | ].
    split; [ split; [ reflexivity | lia ] | ].
    split; [ intros e tr [= <- _]; reflexivity | ].
    split; discriminate.
Qed.

(** No example and two examples. *)
Lemma sample_decode_raises_iff_witness :
  _sample_decode (@nil Z) 5 = Raised ValueError []
  /\ nth_error [7; 8] (Z.to_nat 0) = Some 7.
Proof.
  split.
  - apply (sample_decode_raises_iff Z [] 5). cbn. lia.
  - destruct (sample_decode_raises_iff Z [7; 8] 5) as (_ & _ & _ & Hpick).
    apply (Hpick 0 7 [ModelDecode 0]). reflexivity.
Defined.

(** ** The fields of an example *)

Lemma str_split_not_nil (sep : Ascii.ascii) (s : String.string) :
  str_split sep s <> [].
Proof.
  destruct s as [ | ch rest]; cbn; [ discriminate | ].
  destruct (Ascii.eqb ch sep); [ discriminate | ].
  destruct (str_split sep rest); discriminate.
Qed.

(** Joining the pieces with the separator gives the string back. *)
Lemma str_split_join (sep : Ascii.ascii) (s : String.string) :
  String.concat (String.String sep String.EmptyString) (str_split sep s) = s.
Proof.
  induction s as [ | ch rest IH]; cbn [str_split]; [ reflexivity | ].
  pose proof (str_split_not_nil sep rest) as Hne.
  destruct (Ascii.eqb_spec ch sep) as [-> | Hch].
  - destruct (str_split sep rest) as [ | piece pieces]; [ contradiction | ].
    rewrite <- IH. reflexivity.
  - destruct (str_split sep rest) as [ | piece pieces]; [ contradiction | ].
    rewrite <- IH. destruct pieces; reflexivity.
Qed.

Lemma str_split_length (sep : Ascii.ascii) (s : String.string) :
  length (str_split sep s) = S (occurrences sep s).
Proof.
  induction s as [ | ch rest IH]; cbn; [ reflexivity | ].
  pose proof (str_split_not_nil sep rest) as Hne.
  destruct (Ascii.eqb ch sep); cbn; [ rewrite IH; reflexivity | ].
  destruct (str_split sep rest) as [ | piece pieces]; [ contradiction | ].
  exact IH.
Qed.

Lemma str_split_pieces (sep : Ascii.ascii) (s : String.string) :
  Forall (fun piece => occurrences sep piece = 0%nat) (str_split sep s).
Proof.
  induction s as [ | ch rest IH]; cbn [str_split].
  - repeat constructor.
  - destruct (Ascii.eqb ch sep) eqn:Hch.
    + constructor; [ reflexivity | exact IH ].
    + destruct (str_split sep rest) as [ | piece pieces].
      * repeat constructor. cbn. rewrite Hch. reflexivity.
      * inversion IH as [ | ? ? Hp Hps]; subst.
        constructor; [ cbn; rewrite Hch; exact Hp | exact Hps ].
Qed.

Lemma py_last_removelast (A : Type) (l : list A) :
  l <> [] -> exists x, py_last l = Some x /\ removelast l ++ [x] = l.
Proof.
  intros Hne. unfold py_last.
  destruct (rev l) as [ | x r] eqn:Hrev.
  - apply (f_equal (@rev A)) in Hrev. rewrite rev_involutive in Hrev.
    contradiction.
  - exists x. split; [ reflexivity | ].
    apply (f_equal (@rev A)) in Hrev. rewrite rev_involutive in Hrev. cbn in Hrev.
    subst l. rewrite removelast_last. reflexivity.
Qed.

Lemma map_fst_combine (A B : Type) (l1 : list A) :
  forall l2 : list B, length l1 = length l2 -> map fst (combine l1 l2) = l1.
Proof.
  induction l1 as [ | a l1 IH]; intros [ | b l2] Hlen; cbn in *;
    try reflexivity; try discriminate.
  rewrite IH by lia. reflexivity.
Qed.

Lemma map_snd_combine (A B : Type) (l1 : list A) :
  forall l2 : list B, length l1 = length l2 -> map snd (combine l1 l2) = l2.
Proof.
  induction l1 as [ | a l1 IH]; intros [ | b l2] Hlen; cbn in *;
    try reflexivity; try discriminate.
  rewrite IH by lia. reflexivity.
Qed.

(** Splitting a line of the dataset never fails.  The sources followed by the
    target, joined by tabs, are the line again; there are as many sources as
    the line has tabs, so a line without a tab is all target; no field holds a
    tab; and the sources are logged under the numbers 1, 2, ... in order. *)
Theorem sources_target_fields (line : String.string) :
  exists sources target,
    sources_target line = Some (sources, target)
    /\ String.concat (String.String tab String.EmptyString) (sources ++ [target]) = line
    /\ length sources = occurrences tab line
    /\ Forall (fun field => occurrences tab field = 0%nat) (sources ++ [target])
    /\ (occurrences tab line = 0%nat -> sources = [] /\ target = line)
    /\ map fst (numbered_sources sources)
       = map Z.of_nat (seq 1 (length sources))
    /\ map snd (numbered_sources sources) = sources.
Proof.
  unfold sources_target.
  destruct (py_last_removelast _ _ (str_split_not_nil tab line)) as (target & Hlast & Happ).
  rewrite Hlast. exists (removelast (str_split tab line)), target.
  assert (Hlen : length (removelast (str_split tab line)) = occurrences tab line).
  { pose proof (str_split_length tab line) as H.
    rewrite <- Happ, length_app in H. cbn in H. lia. }
  split; [ reflexivity | ].
  split; [ rewrite Happ; apply str_split_join | ].
  split; [ exact Hlen | ].
  split; [ rewrite Happ; apply str_split_pieces | ].
  split.
  - intros H0. rewrite H0 in Hlen.
    destruct (removelast (str_split tab line)) as [ | ? ?] eqn:Hrem;
      [ | discriminate Hlen ].
    split; [ reflexivity | ].
    pose proof (str_split_join tab line) as Hjoin.
    rewrite <- Happ in Hjoin. cbn in Hjoin. exact Hjoin.
  - unfold numbered_sources. split.
    + rewrite map_fst_combine by (rewrite length_map, length_seq; reflexivity).
      rewrite <- seq_shift, map_map. apply map_ext. intros t. lia.
    + rewrite map_snd_combine by (rewrite length_map, length_seq; reflexivity).
      reflexivity.
Qed.

(** A line of two turns and a response. *)
Example sources_target_three_fields :
  let t := String.String tab String.EmptyString in
  let line := String.append "hi" (String.append t (String.append "how are you"
                (String.append t "fine")))%string in
  sources_target line = Some (["hi"; "how are you"], "fine")%string
  /\ numbered_sources ["hi"; "how are you"]%string
     = [(1, "hi"); (2, "how are you")]%string
  /\ sources_target "no tab here"%string = Some ([], "no tab here"%string)
  /\ sources_target String.EmptyString = Some ([], String.EmptyString).
Proof. vm_compute. repeat split. Qed.
